(** * toridoriv/logger: call-site capture and log records

    A shallow embedding of [lib/callsites.mjs] (the functions [callsites]
    and [parseCallsite] with the table [CALLSITE_METHODS]) and of
    [lib/record.mjs] (the class [LogRecord]: its static [properties], its
    constructor, [#getOriginDetails] and [toJSON]), together with the
    small fragment of JavaScript they rely on: values and truthiness,
    objects with ordered own keys, a few string methods, exceptions,
    [try]/[finally], and the process-wide [Error.prepareStackTrace]. *)

From Stdlib Require Import ZArith List String Ascii Bool Lia.
Import ListNotations.

Local Open Scope string_scope.
Local Open Scope list_scope.

(* ================================================================== *)
(** ** The JavaScript fragment *)
(* ================================================================== *)

Module JS.

(** The value of [Error.prepareStackTrace].  Functions are compared by
    identity, so a user function is its reference; the arrow function
    [(_, callsites) => callsites] that [callsites] installs has its own
    constructor. *)
Inductive Hook : Type :=
| HookUndefined
| HookFunction (ref : nat)
| HookRawFrames.

(** The mutable global state the two modules touch. *)
Record World : Type := mkWorld { prepareStackTrace : Hook }.

(** A thrown value: an error object with its [name] and [message]. *)
Record Exn : Type := mkExn { exn_name : string; exn_message : string }.

Definition TypeError (message : string) : Exn := mkExn "TypeError" message.

(** How a statement or expression completes. *)
Inductive Outcome (A : Type) : Type :=
| Return (a : A)
| Throw (e : Exn).
Arguments Return {A} a.
Arguments Throw {A} e.

(** Computations that read and write the world and may throw; the world
    reached is kept on both completions, as [finally] needs. *)
Definition M (A : Type) : Type := World -> Outcome A * World.

Definition ret {A} (a : A) : M A := fun w => (Return a, w).

Definition throw {A} (e : Exn) : M A := fun w => (Throw e, w).

Definition bind {A B} (m : M A) (k : A -> M B) : M B :=
  fun w =>
    match m w with
    | (Return a, w') => k a w'
    | (Throw e, w') => (Throw e, w')
    end.

Definition lift {A} (o : Outcome A) : M A := fun w => (o, w).

(** Sequencing of expressions that may throw but leave the world alone. *)
Definition and_then {A B} (o : Outcome A) (k : A -> Outcome B) : Outcome B :=
  match o with
  | Return a => k a
  | Throw e => Throw e
  end.

(** [try { body } finally { fin }]: [fin] runs on both completions of
    [body]; a throw of [fin] itself replaces the completion of [body]. *)
Definition try_finally {A} (body : M A) (fin : M unit) : M A :=
  fun w =>
    match body w with
    | (r, w1) =>
        match fin w1 with
        | (Return _, w2) => (r, w2)
        | (Throw e, w2) => (Throw e, w2)
        end
    end.

(** [Error.prepareStackTrace = hook] *)
Definition set_prepareStackTrace (hook : Hook) : M unit :=
  fun _ => (Return tt, mkWorld hook).

Fixpoint mapM {A B} (f : A -> M B) (l : list A) : M (list B) :=
  match l with
  | [] => ret []
  | a :: l' =>
      bind (f a) (fun b => bind (mapM f l') (fun bs => ret (b :: bs)))
  end.

(** Values.  Numbers that occur here are integers (line and column
    numbers, counts, ports, status codes), with [NaN] apart; [VRef] is
    any other object, function or symbol, known by its identity;
    [VObj] is a plain object, its own keys in insertion order;
    [VCallSite] is an object with callable members, such as the call
    sites the engine hands to [Error.prepareStackTrace]. *)
#[warnings="-register-all"]
Inductive Value : Type :=
| VUndefined
| VNull
| VBool (b : bool)
| VNum (n : Z)
| VNaN
| VBigInt (n : Z)
| VStr (s : string)
| VRef (ref : nat)
| VArr (elems : list Value)
| VObj (props : list (string * Value))
| VCallSite (members : string -> option (World -> Outcome Value * World)).

Definition Obj : Type := list (string * Value).

(** ToBoolean *)
Definition truthy (v : Value) : bool :=
  match v with
  | VUndefined | VNull | VNaN => false
  | VBool b => b
  | VNum n | VBigInt n => negb (n =? 0)%Z
  | VStr s => negb (s =? "")
  | VRef _ | VArr _ | VObj _ | VCallSite _ => true
  end.

(** [a || b] *)
Definition or_else (a b : Value) : Value := if truthy a then a else b.

(** [obj[key]] on an object without accessors: the own value, or
    [undefined]. *)
Fixpoint get (obj : Obj) (key : string) : Value :=
  match obj with
  | [] => VUndefined
  | (k, v) :: rest => if k =? key then v else get rest key
  end.

(** [obj[key] = value] for a key that names an ordinary data property:
    an existing key keeps its place, a new one goes last.  (None of the
    keys used here is an array index, which would be enumerated first;
    the key ["__proto__"], which sets the prototype and adds no
    property, is outside this definition.) *)
Fixpoint set (obj : Obj) (key : string) (value : Value) : Obj :=
  match obj with
  | [] => [(key, value)]
  | (k, v) :: rest =>
      if k =? key then (k, value) :: rest else (k, v) :: set rest key value
  end.

(** [Object.keys(obj)] *)
Definition keys (obj : Obj) : list string := map fst obj.

(** [v.key] for a value met at run time and one of the names read
    here, which only a plain object can have. *)
Definition get_prop (v : Value) (key : string) : Outcome Value :=
  match v with
  | VUndefined | VNull =>
      Throw (TypeError ("Cannot read properties of undefined (reading '" ++ key ++ "')"))
  | VObj props => Return (get props key)
  | _ => Return VUndefined
  end.

(** [v[i]] for an array index [i]. *)
Definition index (v : Value) (i : nat) : Outcome Value :=
  match v with
  | VUndefined | VNull =>
      Throw (TypeError "Cannot read properties of undefined")
  | VArr elems => Return (nth i elems VUndefined)
  | VStr s =>
      Return (match String.get i s with
              | Some c => VStr (String c EmptyString)
              | None => VUndefined
              end)
  | _ => Return VUndefined
  end.

(** [v[method]()] *)
Definition invoke (v : Value) (method : string) : M Value :=
  match v with
  | VUndefined | VNull =>
      throw (TypeError ("Cannot read properties of undefined (reading '" ++ method ++ "')"))
  | VCallSite members =>
      match members method with
      | Some call => call
      | None => throw (TypeError ("cs[method] is not a function"))
      end
  | _ => throw (TypeError ("cs[method] is not a function"))
  end.

(** [stack.shift()], giving the array as it is afterwards.  Arrays
    and the values that have no [shift] are as in the language; an
    object that brings a [shift] of its own is not in this fragment and
    is taken to have none. *)
Definition array_shift (v : Value) : M Value :=
  match v with
  | VArr elems => ret (VArr (tl elems))
  | VUndefined | VNull =>
      throw (TypeError "Cannot read properties of undefined (reading 'shift')")
  | _ => throw (TypeError "stack.shift is not a function")
  end.

(** [stack.map(f)], with the same limit as [array_shift]. *)
Definition array_map (f : Value -> M Value) (v : Value) : M Value :=
  match v with
  | VArr elems => bind (mapM f elems) (fun l => ret (VArr l))
  | VUndefined | VNull =>
      throw (TypeError "Cannot read properties of undefined (reading 'map')")
  | _ => throw (TypeError "stack.map is not a function")
  end.

(** *** Strings (code units are taken to be single bytes) *)

Fixpoint drop (n : nat) (s : string) : string :=
  match n, s with
  | O, _ => s
  | S n', String _ s' => drop n' s'
  | S _, EmptyString => EmptyString
  end.

(** [s.substring(start)]: a negative start counts as 0, one beyond the
    end as the length. *)
Definition substring (start : Z) (s : string) : string :=
  drop (Z.to_nat start) s.

(** [s.lastIndexOf(needle)]: the greatest index at which [needle]
    occurs, or [-1]. *)
Fixpoint lastIndexOf_from (needle s : string) (i last : Z) : Z :=
  let last' := if String.prefix needle s then i else last in
  match s with
  | EmptyString => last'
  | String _ s' => lastIndexOf_from needle s' (i + 1)%Z last'
  end.

Definition lastIndexOf (needle s : string) : Z :=
  lastIndexOf_from needle s 0%Z (-1)%Z.

(** [s.replace(pattern, replacement)] with a string pattern: only the
    first occurrence is replaced. *)
Fixpoint replace (pattern replacement s : string) : string :=
  if String.prefix pattern s
  then replacement ++ drop (String.length pattern) s
  else match s with
       | EmptyString => EmptyString
       | String a s' => String a (replace pattern replacement s')
       end.

(** [c.toLowerCase()] on one code unit of the ASCII range, where only
    the letters A to Z change; the code units above it are left as they
    are, which is not what the language does for all of them. *)
Definition toLowerCase (c : ascii) : ascii :=
  let n := nat_of_ascii c in
  if andb (65 <=? n)%nat (n <=? 90)%nat then ascii_of_nat (n + 32) else c.

(** [v === s] for a string [s] *)
Definition is_string (s : string) (v : Value) : bool :=
  match v with
  | VStr t => t =? s
  | _ => false
  end.

Fixpoint array_lastIndexOf_from (needle : string) (elems : list Value) (i last : Z) : Z :=
  match elems with
  | [] => last
  | v :: rest =>
      array_lastIndexOf_from needle rest (i + 1)%Z
        (if is_string needle v then i else last)
  end.

(** [v.lastIndexOf(needle)]: strings and arrays have the method. *)
Definition call_lastIndexOf (v : Value) (needle : string) : Outcome Z :=
  match v with
  | VStr s => Return (lastIndexOf needle s)
  | VArr elems => Return (array_lastIndexOf_from needle elems 0%Z (-1)%Z)
  | VUndefined | VNull =>
      Throw (TypeError "Cannot read properties of undefined (reading 'lastIndexOf')")
  | _ => Throw (TypeError "path.lastIndexOf is not a function")
  end.

(** [v.substring(start)]: only strings have the method. *)
Definition call_substring (v : Value) (start : Z) : Outcome Value :=
  match v with
  | VStr s => Return (VStr (substring start s))
  | VUndefined | VNull =>
      Throw (TypeError "Cannot read properties of undefined (reading 'substring')")
  | _ => Throw (TypeError "path.substring is not a function")
  end.

(** [v.length] *)
Definition length_of (v : Value) : Value :=
  match v with
  | VArr elems => VNum (Z.of_nat (List.length elems))
  | VStr s => VNum (Z.of_nat (String.length s))
  | _ => VUndefined
  end.

End JS.

(* ================================================================== *)
(** ** The engine: errors and their stacks *)
(* ================================================================== *)

Module Runtime.
Import JS.

(** What the engine offers for stack traces: the V8 stack trace API, in
    which [error.stack] is formatted on first access by the function in
    [Error.prepareStackTrace]; a preformatted text that no hook can
    change; or no [stack] property at all. *)
Inductive Engine : Type :=
| StructuredTraces
| TextTraces (text : string)
| NoTraces.

(** The surroundings of one call: the engine; what [error.stack] gives
    under any hook other than the one [callsites] installs (the default
    text, or the result of a user function); the activations the engine
    records for an error created in the parameter list of [callsites],
    innermost first, so that of [callsites] itself leads; [Deno.args]
    when there is a [Deno] global; and the reading of the clock as
    [new Date().toISOString()] gives it. *)
Record Host : Type := mkHost {
  engine : Engine;
  render : Hook -> list Value -> M Value;
  activations : list Value;
  Deno : option (list string);
  now : string
}.

(** An error object, as far as [callsites] looks at it: whether it is
    an instance of the module's private class [StackOnlyError], and the
    code behind its [stack] property. *)
Record JSError : Type := mkError {
  instanceof_StackOnlyError : bool;
  stack : M Value
}.

(** [error.stack] for an error of the engine whose recorded frames are
    [frames] and whose stack has not been read before. *)
Definition engine_stack (h : Host) (frames : list Value) : M Value :=
  fun w =>
    match engine h with
    | StructuredTraces =>
        match prepareStackTrace w with
        | HookRawFrames => (Return (VArr frames), w)
        | hook => render h hook frames w
        end
    | TextTraces text => (Return (VStr text), w)
    | NoTraces => (Return VUndefined, w)
    end.

(** [new Error()] where the engine records [frames]. *)
Definition new_Error (h : Host) (frames : list Value) : JSError :=
  mkError false (engine_stack h frames).

(** [new StackOnlyError()], evaluated as the default of the parameter
    of [callsites]. *)
Definition new_StackOnlyError (h : Host) : JSError :=
  mkError true (engine_stack h (activations h)).

(** What the sixteen members that [CALLSITE_METHODS] names return on a
    call site of the engine.  The interface [CallSite] of
    [typings/global.d.ts] declares their types; an engine may return
    [null] or [undefined] where the declaration says otherwise, so each
    is any value here. *)
Record CallSite : Type := mkCallSite {
  getThis : Value;
  getTypeName : Value;
  getFunction : Value;
  getFunctionName : Value;
  getMethodName : Value;
  getFileName : Value;
  getLineNumber : Value;
  getColumnNumber : Value;
  getEvalOrigin : Value;
  isToplevel : Value;
  isEval : Value;
  isNative : Value;
  isConstructor : Value;
  isAsync : Value;
  isPromiseAll : Value;
  getPromiseIndex : Value
}.

Definition string_or_null (o : option string) : Value :=
  match o with Some s => VStr s | None => VNull end.

Definition string_or_undefined (o : option string) : Value :=
  match o with Some s => VStr s | None => VUndefined end.

Definition number_or_null (o : option Z) : Value :=
  match o with Some n => VNum n | None => VNull end.

(** What calling a member of such a call site returns. *)
Definition member (cs : CallSite) (method : string) : option Value :=
  if method =? "getThis" then Some (getThis cs)
  else if method =? "getTypeName" then Some (getTypeName cs)
  else if method =? "getFunction" then Some (getFunction cs)
  else if method =? "getFunctionName" then Some (getFunctionName cs)
  else if method =? "getMethodName" then Some (getMethodName cs)
  else if method =? "getFileName" then Some (getFileName cs)
  else if method =? "getLineNumber" then Some (getLineNumber cs)
  else if method =? "getColumnNumber" then Some (getColumnNumber cs)
  else if method =? "getEvalOrigin" then Some (getEvalOrigin cs)
  else if method =? "isToplevel" then Some (isToplevel cs)
  else if method =? "isEval" then Some (isEval cs)
  else if method =? "isNative" then Some (isNative cs)
  else if method =? "isConstructor" then Some (isConstructor cs)
  else if method =? "isAsync" then Some (isAsync cs)
  else if method =? "isPromiseAll" then Some (isPromiseAll cs)
  else if method =? "getPromiseIndex" then Some (getPromiseIndex cs)
  else None.

(** The call site as the object the engine passes to the hook: its
    members neither throw nor touch the world. *)
Definition callsite_object (cs : CallSite) : Value :=
  VCallSite (fun method =>
               match member cs method with
               | Some v => Some (ret v)
               | None => None
               end).

End Runtime.

(* ================================================================== *)
(** ** lib/callsites.mjs *)
(* ================================================================== *)

Module Callsites.
Import JS Runtime.

Definition CALLSITE_METHODS : list string :=
  [ "getThis";
    "getTypeName";
    "getFunction";
    "getFunctionName";
    "getMethodName";
    "getFileName";
    "getLineNumber";
    "getColumnNumber";
    "getEvalOrigin";
    "isToplevel";
    "isEval";
    "isNative";
    "isConstructor";
    "isAsync";
    "isPromiseAll";
    "getPromiseIndex" ].

(** [noGet[0].toLowerCase() + noGet.substring(1)]; on the empty string
    [noGet[0]] is [undefined] and the member access throws. *)
Definition property_of (noGet : string) : Outcome string :=
  match noGet with
  | EmptyString =>
      Throw (TypeError "Cannot read properties of undefined (reading 'toLowerCase')")
  | String c _ => Return (String (toLowerCase c) (substring 1 noGet))
  end.

(** The body of the [for] loop of [parseCallsite], from index
    [i = length CALLSITE_METHODS - length methods] on. *)
Fixpoint parseCallsite_loop (cs : Value) (methods : list string) (result : Obj)
  : M Obj :=
  match methods with
  | [] => ret result
  | method :: rest =>
      let noGet := replace "get" "" method in
      bind (lift (property_of noGet)) (fun property =>
      bind (invoke cs method) (fun v =>
      parseCallsite_loop cs rest (set result property v)))
  end.

Definition parseCallsite (cs : Value) : M Value :=
  bind (parseCallsite_loop cs CALLSITE_METHODS []) (fun result =>
  ret (VObj result)).

(** [callsites(error)]; [None] is a call without argument (or with
    [undefined]), for which the parameter defaults to
    [new StackOnlyError()]. *)
Definition callsites (h : Host) (argument : option JSError) : M Value :=
  fun w =>
    let error :=
      match argument with
      | Some e => e
      | None => new_StackOnlyError h
      end in
    let _prepareStackTrace := prepareStackTrace w in
    try_finally
      (bind (set_prepareStackTrace HookRawFrames) (fun _ =>
       bind (stack error) (fun stack =>
       bind (if instanceof_StackOnlyError error
             then array_shift stack
             else ret stack) (fun stack =>
       array_map parseCallsite stack))))
      (set_prepareStackTrace _prepareStackTrace)
      w.

End Callsites.

(* ================================================================== *)
(** ** lib/record.mjs *)
(* ================================================================== *)

Module Record.
Import JS Runtime Callsites.

(** [LogRecord.properties] *)
Definition properties : list string :=
  [ "@timestamp";
    "message";
    "data";
    "log.level";
    "log.logger";
    "log.origin.file.column";
    "log.origin.file.line";
    "log.origin.file.name";
    "log.origin.file.path";
    "log.origin.function";
    "error.code";
    "error.id";
    "error.message";
    "error.stack_trace";
    "error.type";
    "service.name";
    "service.version";
    "service.environment";
    "service.id";
    "process.args";
    "process.args_count";
    "event.duration";
    "http.version";
    "http.request.id";
    "http.request.method";
    "http.request.mime_type";
    "http.response.body.content";
    "http.response.mime_type";
    "http.response.status_code";
    "url.domain";
    "url.extension";
    "url.fragment";
    "url.full";
    "url.password";
    "url.path";
    "url.port";
    "url.query";
    "url.scheme";
    "url.username" ].

(** An instance: the private field [#callsites] and the public
    properties, which callers may assign. *)
Record LogRecord : Type := mkLogRecord {
  callsites_field : Value;
  this : Obj
}.

(** The object literal [#getOriginDetails] returns. *)
Record OriginDetails : Type := mkOriginDetails {
  column : Value;
  line : Value;
  path : Value;
  fileName : Value;
  function : Value
}.

(** [#getOriginDetails()], given the value of [this.#callsites]. *)
Definition getOriginDetails (callsites_field : Value) : Outcome OriginDetails :=
  and_then (index callsites_field 2) (fun cs =>
  and_then (get_prop cs "fileName") (fun cs_fileName =>
  let path := or_else cs_fileName (VStr "") in
  and_then (if truthy path
            then and_then (call_lastIndexOf path "/") (fun i =>
                 call_substring path (i + 1)%Z)
            else Return (VStr "")) (fun fileName =>
  and_then (get_prop cs "columnNumber") (fun cs_columnNumber =>
  and_then (get_prop cs "lineNumber") (fun cs_lineNumber =>
  and_then (get_prop cs "functionName") (fun cs_functionName =>
  Return {| column := or_else cs_columnNumber (VNum 0);
            line := or_else cs_lineNumber (VNum 0);
            path := path;
            fileName := fileName;
            function := or_else cs_functionName (VStr "none") |})))))).

(** [globalThis.Deno ? Deno.args : []] *)
Definition process_args (h : Host) : Value :=
  match Deno h with
  | Some args => VArr (map VStr args)
  | None => VArr []
  end.

(** [new LogRecord()]: the field initializer [#callsites = callsites()]
    runs first, then the constructor body. *)
Definition new_LogRecord (h : Host) : M LogRecord :=
  bind (callsites h None) (fun callsites_field =>
  let this := [] in
  let this := set this "@timestamp" (VStr (now h)) in
  let this := set this "message" (VStr "") in
  let this := set this "data" (VStr "") in
  let this := set this "log.level" (VStr "") in
  let this := set this "log.logger" (VStr "unknown") in
  bind (lift (getOriginDetails callsites_field)) (fun originDetails =>
  let this := set this "log.origin.file.column" (column originDetails) in
  let this := set this "log.origin.file.line" (line originDetails) in
  let this := set this "log.origin.file.name" (fileName originDetails) in
  let this := set this "log.origin.file.path" (path originDetails) in
  let this := set this "log.origin.function" (function originDetails) in
  let this := set this "error.code" (VStr "") in
  let this := set this "error.id" (VStr "") in
  let this := set this "error.message" (VStr "") in
  let this := set this "error.stack_trace" (VStr "") in
  let this := set this "error.type" (VStr "") in
  let this := set this "service.name" (VStr "") in
  let this := set this "service.version" (VStr "") in
  let this := set this "service.environment" (VStr "") in
  let this := set this "service.id" (VStr "") in
  let this := set this "process.args" (process_args h) in
  let this := set this "process.args_count" (length_of (get this "process.args")) in
  let this := set this "event.duration" (VStr "") in
  let this := set this "http.version" (VStr "") in
  let this := set this "http.request.id" (VStr "") in
  let this := set this "http.request.method" (VStr "") in
  let this := set this "http.request.mime_type" (VStr "") in
  let this := set this "http.response.body.content" (VStr "") in
  let this := set this "http.response.mime_type" (VStr "") in
  let this := set this "http.response.status_code" (VNum 0) in
  let this := set this "url.domain" (VStr "") in
  let this := set this "url.extension" (VStr "") in
  let this := set this "url.fragment" (VStr "") in
  let this := set this "url.full" (VStr "") in
  let this := set this "url.password" (VStr "") in
  let this := set this "url.path" (VStr "") in
  let this := set this "url.port" (VNum 0) in
  let this := set this "url.query" (VStr "") in
  let this := set this "url.scheme" (VStr "") in
  let this := set this "url.username" (VStr "") in
  ret (mkLogRecord callsites_field this))).

(** One round of the loop of [toJSON]. *)
Definition toJSON_round (this : Obj) (obj : Obj) (key : string) : Obj :=
  let value := get this key in
  if truthy value then set obj key value else obj.

(** [toJSON()], on the current public properties of the record. *)
Definition toJSON (this : Obj) : Obj :=
  fold_left (toJSON_round this) properties [].

End Record.

(* ================================================================== *)
(** ** Vocabulary of the properties, and sample inputs *)
(* ================================================================== *)

Module Props.
Import JS Runtime Callsites Record.

(** The interface [ExpandedCallSite] of [typings/callsites.d.ts], filled
    from a call site of the engine. *)
Definition expanded (cs : CallSite) : Obj :=
  [ ("this", getThis cs);
    ("typeName", getTypeName cs);
    ("function", getFunction cs);
    ("functionName", getFunctionName cs);
    ("methodName", getMethodName cs);
    ("fileName", getFileName cs);
    ("lineNumber", getLineNumber cs);
    ("columnNumber", getColumnNumber cs);
    ("evalOrigin", getEvalOrigin cs);
    ("isToplevel", isToplevel cs);
    ("isEval", isEval cs);
    ("isNative", isNative cs);
    ("isConstructor", isConstructor cs);
    ("isAsync", isAsync cs);
    ("isPromiseAll", isPromiseAll cs);
    ("promiseIndex", getPromiseIndex cs) ].

(** The keys of an expanded call site, in the order [parseCallsite]
    creates them. *)
Definition expanded_keys : list string :=
  [ "this"; "typeName"; "function"; "functionName"; "methodName";
    "fileName"; "lineNumber"; "columnNumber"; "evalOrigin"; "isToplevel";
    "isEval"; "isNative"; "isConstructor"; "isAsync"; "isPromiseAll";
    "promiseIndex" ].

(** The field names as the specification lists them. *)
Definition specified_keys : list string :=
  [ "receiver"; "typeName"; "function"; "functionName"; "methodName";
    "fileName"; "lineNumber"; "columnNumber"; "evalOrigin"; "isToplevel";
    "isEval"; "isNative"; "isConstructor"; "isAsync"; "isPromiseAll";
    "promiseIndex" ].

Definition same_keys (l1 l2 : list string) : Prop :=
  forall key, In key l1 <-> In key l2.

(** [d] is what [parseCallsite] returns for the call site [cs], in any
    world and without changing it. *)
Definition parsed_from (cs : Value) (d : Value) : Prop :=
  forall w, parseCallsite cs w = (Return d, w).

(** A frame whose sixteen members return without throwing and without
    touching the world, each the same value whenever it is called; the
    call sites of an engine are such. *)
Definition quiet_frame (cs : Value) : Prop :=
  forall method, In method CALLSITE_METHODS ->
    exists value, forall w, invoke cs method w = (Return value, w).

(** The members that tell where in the program an activation is, each
    with the key [parseCallsite] gives it.  The others ([getThis],
    [getFunction], [getTypeName], [getMethodName], [isToplevel]) tell of
    the receiver and the function object of the call. *)
Definition position_fields : list (string * string) :=
  [ ("getFunctionName", "functionName");
    ("getFileName", "fileName");
    ("getLineNumber", "lineNumber");
    ("getColumnNumber", "columnNumber");
    ("getEvalOrigin", "evalOrigin");
    ("isEval", "isEval");
    ("isNative", "isNative");
    ("isConstructor", "isConstructor");
    ("isAsync", "isAsync");
    ("isPromiseAll", "isPromiseAll");
    ("getPromiseIndex", "promiseIndex") ].

(** Two activations at the same place of the same program. *)
Definition same_position (a b : Value) : Prop :=
  forall method key, In (method, key) position_fields ->
    forall w, invoke a method w = invoke b method w.

(** Two descriptors that agree on where the activation is. *)
Definition same_position_fields (d1 d2 : Value) : Prop :=
  forall method key, In (method, key) position_fields ->
    get_prop d1 key = get_prop d2 key.

(** A value [#getOriginDetails] can take as file name: a string, or a
    falsy value, for which it takes the empty string. *)
Definition path_like (v : Value) : Prop :=
  truthy v = false \/ exists p, v = VStr p.


(** Two descriptors that differ at most in [this] and [function]. *)
Definition equal_but_identity (d1 d2 : Value) : Prop :=
  exists o1 o2,
    d1 = VObj o1 /\ d2 = VObj o2 /\ keys o1 = keys o2 /\
    forall key, key <> "this" -> key <> "function" -> get o1 key = get o2 key.

Fixpoint contains (c : ascii) (s : string) : bool :=
  match s with
  | EmptyString => false
  | String a s' => if Ascii.eqb a c then true else contains c s'
  end.

(** [base] is what follows the last ["/"] of [p], all of [p] when it has
    none. *)
Definition after_last_slash (p base : string) : Prop :=
  contains "/" base = false /\
  exists dir, p = (dir ++ base)%string /\ (dir = "" \/ exists d, dir = (d ++ "/")%string).

(** The position of the last ["/"] of a string. *)
Fixpoint last_slash (s : string) : option nat :=
  match s with
  | EmptyString => None
  | String a s' =>
      match last_slash s' with
      | Some n => Some (S n)
      | None => if Ascii.eqb a "/" then Some O else None
      end
  end.


(** *** Sample inputs *)

Definition frame (functionName : option string) (fileName : option string)
  (lineNumber columnNumber : option Z) (constructor : bool) : CallSite :=
  mkCallSite VUndefined VNull VUndefined (string_or_null functionName) VNull
    (string_or_undefined fileName) (number_or_null lineNumber)
    (number_or_null columnNumber) VUndefined (VBool false) (VBool false)
    (VBool false) (VBool constructor) (VBool false) (VBool false) VNull.

Definition frame_callsites : CallSite :=
  frame (Some "callsites") (Some "file:///app/lib/callsites.mjs")
    (Some 74%Z) (Some 34%Z) false.

Definition frame_initializer : CallSite :=
  frame (Some "<instance_members_initializer>")
    (Some "file:///app/lib/record.mjs") (Some 215%Z) (Some 16%Z) false.

Definition frame_constructor : CallSite :=
  frame (Some "LogRecord") (Some "file:///app/lib/record.mjs")
    (Some 217%Z) (Some 3%Z) true.

Definition frame_main : CallSite :=
  frame (Some "main") (Some "file:///app/test/fixtures/record.mjs")
    (Some 7%Z) (Some 28%Z) false.

Definition frame_main' : CallSite :=
  mkCallSite (VRef 11) VNull (VRef 12) (VStr "main") VNull
    (VStr "file:///app/test/fixtures/record.mjs") (VNum 7) (VNum 28)
    VUndefined (VBool false) (VBool false) (VBool false) (VBool false)
    (VBool false) (VBool false) VNull.

(** The activation of one method, at one place, on receivers of two
    classes. *)
Definition frame_method (typeName : string) : CallSite :=
  mkCallSite VUndefined (VStr typeName) VUndefined (VStr "describe")
    (VStr "describe") (VStr "file:///app/shapes.mjs") (VNum 3) (VNum 12)
    VUndefined (VBool false) (VBool false) (VBool false) (VBool false)
    (VBool false) (VBool false) VNull.

(** A frame of the engine that reports no file, as for native code. *)
Definition frame_native : CallSite :=
  mkCallSite VUndefined VNull VUndefined VNull VNull VNull VNull VNull
    VUndefined (VBool false) (VBool false) (VBool true) (VBool false)
    (VBool false) (VBool false) VNull.

Definition sample_frames : list CallSite :=
  [frame_callsites; frame_initializer; frame_constructor; frame_main].

Definition default_text : string := "Error at main (file:///app/main.mjs:7:28)".

Definition sample_host : Host :=
  mkHost StructuredTraces (fun _ _ => ret (VStr default_text))
    (map callsite_object sample_frames) None "2023-12-10T20:55:18.908Z".

(** A host whose stack has only two activations above [callsites]. *)
Definition shallow_host : Host :=
  mkHost StructuredTraces (fun _ _ => ret (VStr default_text))
    (map callsite_object [frame_callsites; frame_initializer; frame_constructor])
    None "2023-12-10T20:55:18.908Z".

(** A host whose engine ignores [Error.prepareStackTrace]. *)
Definition text_host : Host :=
  mkHost (TextTraces default_text) (fun _ _ => ret (VStr default_text))
    (map callsite_object sample_frames) None "2023-12-10T20:55:18.908Z".

Definition sample_world : World := mkWorld (HookFunction 7).

Definition sample_error : JSError :=
  new_Error sample_host (map callsite_object [frame_main; frame_native]).

(** An error whose [stack] getter replaces the hook and then throws. *)
Definition faulty_error : JSError :=
  mkError false
    (fun _ => (Throw (mkExn "RangeError" "stack"), mkWorld (HookFunction 99))).

(** A call site all of whose members clear the hook and throw, and an
    error that carries it behind a sound one. *)
Definition faulty_callsite : Value :=
  VCallSite (fun _ =>
               Some (fun _ => (Throw (mkExn "Error" "member"), mkWorld HookUndefined))).

Definition half_faulty_error : JSError :=
  new_Error sample_host [callsite_object frame_main; faulty_callsite].

(** What [callsites()] returns on [sample_host]. *)
Definition sample_result : Value :=
  VArr (map (fun cs => VObj (expanded cs))
            [frame_initializer; frame_constructor; frame_main]).

(** The record built on [sample_host], with its public properties. *)
Definition sample_record : Obj :=
  match new_LogRecord sample_host sample_world with
  | (Return r, _) => this r
  | (Throw _, _) => []
  end.

(** The instance built on [sample_host]. *)
Definition sample_LogRecord : LogRecord := mkLogRecord sample_result sample_record.

(** [Deno.args], or the empty list without a [Deno] global. *)
Definition args_of (h : Host) : list string :=
  match Deno h with
  | Some args => args
  | None => []
  end.

(** The public properties as the constructor leaves them, for the
    origin details it computed. *)
Definition fresh_properties (h : Host) (od : OriginDetails) : Obj :=
  [ ("@timestamp", VStr (now h));
    ("message", VStr "");
    ("data", VStr "");
    ("log.level", VStr "");
    ("log.logger", VStr "unknown");
    ("log.origin.file.column", column od);
    ("log.origin.file.line", line od);
    ("log.origin.file.name", fileName od);
    ("log.origin.file.path", path od);
    ("log.origin.function", function od);
    ("error.code", VStr "");
    ("error.id", VStr "");
    ("error.message", VStr "");
    ("error.stack_trace", VStr "");
    ("error.type", VStr "");
    ("service.name", VStr "");
    ("service.version", VStr "");
    ("service.environment", VStr "");
    ("service.id", VStr "");
    ("process.args", process_args h);
    ("process.args_count", length_of (process_args h));
    ("event.duration", VStr "");
    ("http.version", VStr "");
    ("http.request.id", VStr "");
    ("http.request.method", VStr "");
    ("http.request.mime_type", VStr "");
    ("http.response.body.content", VStr "");
    ("http.response.mime_type", VStr "");
    ("http.response.status_code", VNum 0);
    ("url.domain", VStr "");
    ("url.extension", VStr "");
    ("url.fragment", VStr "");
    ("url.full", VStr "");
    ("url.password", VStr "");
    ("url.path", VStr "");
    ("url.port", VNum 0);
    ("url.query", VStr "");
    ("url.scheme", VStr "");
    ("url.username", VStr "") ].

(** The properties that construction can leave truthy. *)
Definition fresh_emitted : list string :=
  [ "@timestamp"; "log.logger"; "log.origin.file.column";
    "log.origin.file.line"; "log.origin.file.name"; "log.origin.file.path";
    "log.origin.function"; "process.args"; "process.args_count" ].


(** A call site of an engine that has no [getPromiseIndex], and an error
    that carries it behind a complete one. *)
Definition old_callsite : Value :=
  VCallSite (fun method =>
               if method =? "getPromiseIndex" then None
               else match member frame_main method with
                    | Some v => Some (ret v)
                    | None => None
                    end).

Definition old_error : JSError :=
  new_Error sample_host [callsite_object frame_main; old_callsite].

(** The sample host again, but with a user hook that throws, other
    arguments and another time. *)
Definition other_host : Host :=
  mkHost StructuredTraces (fun _ _ => throw (mkExn "Error" "user hook"))
    (map callsite_object sample_frames) (Some ["-v"]) "2024-01-01T00:00:00.000Z".

(** Two hosts whose stacks are, place by place, the same: a method that
    calls [callsites], called from one line on a [Circle] and on a
    [Square]. *)
Definition circle_host : Host :=
  mkHost StructuredTraces (fun _ _ => ret (VStr default_text))
    (map callsite_object [frame_callsites; frame_method "Circle"; frame_main])
    None "2023-12-10T20:55:18.908Z".

Definition square_host : Host :=
  mkHost StructuredTraces (fun _ _ => ret (VStr default_text))
    (map callsite_object [frame_callsites; frame_method "Square"; frame_main])
    None "2023-12-10T20:55:18.908Z".

(** A host that instantiates a record from native code. *)
Definition native_host : Host :=
  mkHost StructuredTraces (fun _ _ => ret (VStr default_text))
    (map callsite_object
         [frame_callsites; frame_initializer; frame_constructor; frame_native])
    None "2023-12-10T20:55:18.908Z".

(** A host on which only [callsites] itself is recorded. *)
Definition lone_host : Host :=
  mkHost StructuredTraces (fun _ _ => ret (VStr default_text))
    (map callsite_object [frame_callsites]) None "2023-12-10T20:55:18.908Z".

End Props.

Import JS Runtime Callsites Record Props.

(* ================================================================== *)
(** ** Reasoning about computations *)
(* ================================================================== *)

Lemma bind_Return_inv {A B} (m : M A) (k : A -> M B) w b w' :
  bind m k w = (Return b, w') ->
  exists a w1, m w = (Return a, w1) /\ k a w1 = (Return b, w').
Proof.
  unfold bind. destruct (m w) as [[a | e] w1]; intros H.
  - exists a, w1. split; [reflexivity | exact H].
  - discriminate H.
Qed.

Lemma bind_Return {A B} (m : M A) (k : A -> M B) w a w1 :
  m w = (Return a, w1) -> bind m k w = k a w1.
Proof. intros H. unfold bind. rewrite H. reflexivity. Qed.

Lemma bind_Throw {A B} (m : M A) (k : A -> M B) w e w1 :
  m w = (Throw e, w1) -> bind m k w = (Throw e, w1).
Proof. intros H. unfold bind. rewrite H. reflexivity. Qed.

Section MapM.
Context {A B : Type}.

(** Whatever a returning [mapM] delivers came from its function. *)
Lemma mapM_Return_inv (f : A -> M B) (l : list A) w bs w' :
  mapM f l w = (Return bs, w') ->
  Forall2 (fun a b => exists w1 w2, f a w1 = (Return b, w2)) l bs.
Proof.
  revert w bs w'. induction l as [| a l IH]; simpl; intros w bs w' H.
  - inversion H. constructor.
  - apply bind_Return_inv in H. destruct H as (b & w1 & Hb & H).
    apply bind_Return_inv in H. destruct H as (bs' & w2 & Hbs & H).
    inversion H; subst. constructor.
    + exists w, w1. exact Hb.
    + exact (IH _ _ _ Hbs).
Qed.
End MapM.

(* ================================================================== *)
(** ** The hook is restored *)
(* ================================================================== *)

(** The world in which the body of the [try] block starts. *)
Lemma callsites_unfold h argument w :
  callsites h argument w =
  (fst (bind (stack (match argument with Some e => e | None => new_StackOnlyError h end))
          (fun stack =>
           bind (if instanceof_StackOnlyError
                      (match argument with Some e => e | None => new_StackOnlyError h end)
                 then array_shift stack else ret stack)
                (array_map parseCallsite))
          (mkWorld HookRawFrames)),
   mkWorld (prepareStackTrace w)).
Proof.
  unfold callsites, try_finally, set_prepareStackTrace.
  unfold bind at 1. simpl.
  match goal with |- context [bind ?m ?k ?w0] => destruct (bind m k w0) as [r w1] end.
  reflexivity.
Qed.

(** C1: whatever the argument, the engine and the call sites do, and
    whether [callsites] returns or throws, [Error.prepareStackTrace]
    holds after the call the very value it held before. *)
Theorem callsites_restores_prepareStackTrace :
  forall (h : Host) (argument : option JSError) (w : World),
    prepareStackTrace (snd (callsites h argument w)) = prepareStackTrace w.
Proof.
  intros h argument w. rewrite callsites_unfold. reflexivity.
Qed.

(** Both ways out with a throw: while the stack is read, and while the
    second frame is mapped; the hook is back each time. *)
Example callsites_restores_after_throw :
  callsites sample_host (Some faulty_error) sample_world
    = (Throw (mkExn "RangeError" "stack"), sample_world) /\
  callsites sample_host (Some half_faulty_error) sample_world
    = (Throw (mkExn "Error" "member"), sample_world).
Proof. split; reflexivity. Qed.

(* ================================================================== *)
(** ** What [parseCallsite] and [callsites] return *)
(* ================================================================== *)

(** Every round of the loop of [parseCallsite] that completes has set
    one property, named after its method, to what the method returned. *)
Lemma parseCallsite_loop_inv cs methods result w o w' :
  parseCallsite_loop cs methods result w = (Return o, w') ->
  exists assigned,
    Forall2 (fun method kv =>
               property_of (replace "get" "" method) = Return (fst kv) /\
               exists w1 w2, invoke cs method w1 = (Return (snd kv), w2))
            methods assigned /\
    o = fold_left (fun r kv => set r (fst kv) (snd kv)) assigned result.
Proof.
  revert result w. induction methods as [| method rest IH]; intros result w H.
  - simpl in H. inversion H; subst. exists []. split; [constructor | reflexivity].
  - simpl in H.
    apply bind_Return_inv in H. destruct H as (property & w0 & Hp & H).
    apply bind_Return_inv in H. destruct H as (v & w1 & Hv & H).
    unfold lift in Hp. inversion Hp; subst w0.
    destruct (IH _ _ H) as (assigned & HF & Ho).
    exists ((property, v) :: assigned). split.
    + constructor; [| exact HF]. simpl. split; [assumption |].
      exists w, w1. exact Hv.
    + simpl. exact Ho.
Qed.

(** A descriptor that [parseCallsite] returns has the sixteen keys. *)
Lemma parseCallsite_keys cs w d w' :
  parseCallsite cs w = (Return d, w') ->
  exists o, d = VObj o /\ keys o = expanded_keys.
Proof.
  unfold parseCallsite. intros H.
  apply bind_Return_inv in H. destruct H as (o & w1 & Hloop & H).
  inversion H; subst. exists o. split; [reflexivity |].
  apply parseCallsite_loop_inv in Hloop.
  destruct Hloop as (assigned & HF & ->).
  unfold CALLSITE_METHODS in HF.
  repeat match goal with
         | HF : Forall2 _ (_ :: _) _ |- _ =>
             let kv := fresh "kv" in
             let Hk := fresh "Hk" in
             let HF' := fresh "HF" in
             inversion HF as [| ? kv ? ? [Hk _] HF']; clear HF; subst;
             destruct kv as [? ?]; vm_compute in Hk; inversion Hk; subst; clear Hk
         | HF : Forall2 _ [] _ |- _ => inversion HF; clear HF; subst
         end.
  reflexivity.
Qed.

(** A call that returns delivers an array, each member of which
    [parseCallsite] returned for a member of the stack. *)
Lemma callsites_Return_inv h argument w v w' :
  callsites h argument w = (Return v, w') ->
  exists raw descs,
    v = VArr descs /\
    Forall2 (fun cs d => exists w1 w2, parseCallsite cs w1 = (Return d, w2)) raw descs.
Proof.
  rewrite callsites_unfold. intros H.
  match type of H with (fst ?c, _) = _ => destruct c as [r w1] eqn:Hbody end.
  simpl in H. inversion H; subst r w'. clear H.
  apply bind_Return_inv in Hbody. destruct Hbody as (st & w2 & _ & Hbody).
  apply bind_Return_inv in Hbody. destruct Hbody as (st' & w3 & _ & Hbody).
  destruct st'; simpl in Hbody; try discriminate Hbody.
  apply bind_Return_inv in Hbody. destruct Hbody as (descs & w4 & Hmap & Hret).
  inversion Hret; subst. exists elems, descs. split; [reflexivity |].
  exact (mapM_Return_inv _ _ _ _ _ Hmap).
Qed.

(** So what a call returns is an array of plain objects. *)
Lemma callsites_returns_objects h argument w v w' :
  callsites h argument w = (Return v, w') ->
  exists descs, v = VArr descs /\ Forall (fun d => exists o, d = VObj o) descs.
Proof.
  intros H.
  destruct (callsites_Return_inv _ _ _ _ _ H) as (raw & descs & -> & HF).
  exists descs. split; [reflexivity |]. clear H.
  induction HF as [| cs d raw descs (w1 & w2 & Hd) _ IH];
    [constructor | constructor; [| exact IH]].
  destruct (parseCallsite_keys _ _ _ _ Hd) as (o & -> & _).
  exists o. reflexivity.
Qed.

(** C5, as the code has it: every descriptor that [callsites] returns
    has exactly the sixteen keys this, typeName, function, functionName,
    methodName, fileName, lineNumber, columnNumber, evalOrigin,
    isToplevel, isEval, isNative, isConstructor, isAsync, isPromiseAll
    and promiseIndex, one for each method of the table and none
    twice. *)
Theorem callsites_descriptor_keys :
  forall (h : Host) (argument : option JSError) (w w' : World) (v : Value),
    callsites h argument w = (Return v, w') ->
    exists descs,
      v = VArr descs /\
      Forall (fun d => exists o,
                  d = VObj o /\ keys o = expanded_keys /\ NoDup (keys o) /\
                  List.length (keys o) = List.length CALLSITE_METHODS)
             descs.
Proof.
  intros h argument w w' v H.
  destruct (callsites_Return_inv _ _ _ _ _ H) as (raw & descs & -> & HF).
  exists descs. split; [reflexivity |].
  clear H. induction HF as [| cs d raw descs (w1 & w2 & Hd) _ IH];
    [constructor | constructor; [| exact IH]].
  destruct (parseCallsite_keys _ _ _ _ Hd) as (o & -> & Hk).
  exists o. rewrite Hk. repeat split.
  unfold expanded_keys.
  repeat (constructor; [simpl; intuition discriminate |]). constructor.
Qed.

Lemma callsites_descriptor_keys_witness :
  callsites sample_host None sample_world = (Return sample_result, sample_world) /\
  exists descs,
    sample_result = VArr descs /\
    Forall (fun d => exists o,
                d = VObj o /\ keys o = expanded_keys /\ NoDup (keys o) /\
                List.length (keys o) = List.length CALLSITE_METHODS)
           descs.
Proof.
  split; [reflexivity |].
  apply (callsites_descriptor_keys sample_host None sample_world sample_world).
  reflexivity.
Defined.

(** C5 as the specification lists the keys: the descriptor of the first
    frame returned on the sample host has the key "this" and no key
    "receiver". *)
Lemma callsites_descriptor_has_no_receiver :
  exists o rest,
    callsites sample_host None sample_world
      = (Return (VArr (VObj o :: rest)), sample_world) /\
    In "this" (keys o) /\
    ~ same_keys (keys o) specified_keys.
Proof.
  exists (expanded frame_initializer),
         (map (fun cs => VObj (expanded cs)) [frame_constructor; frame_main]).
  split; [reflexivity |]. split; [left; reflexivity |].
  intros Hsame. destruct (Hsame "receiver") as [_ Hin].
  assert (Hr : In "receiver" (keys (expanded frame_initializer))).
  { apply Hin. left. reflexivity. }
  simpl in Hr. intuition discriminate.
Qed.

(** C6, as the code has it: on an engine without the stack trace API
    (the stack is a text, or absent) a call without argument throws the
    [TypeError] of calling [shift] on what is not an array; it returns
    nothing, so no empty sequence either. *)
Theorem callsites_without_stack_trace_api :
  forall (h : Host) (w : World),
    engine h <> StructuredTraces ->
    (exists e, callsites h None w = (Throw e, w) /\ exn_name e = "TypeError") /\
    (forall v, fst (callsites h None w) <> Return v).
Proof.
  intros h w He.
  assert (H : exists e, callsites h None w = (Throw e, w) /\ exn_name e = "TypeError").
  { rewrite callsites_unfold. destruct w as [hook]. simpl.
    unfold bind, engine_stack.
    destruct (engine h) as [| text |]; [contradiction | |];
      simpl; eexists; split; reflexivity. }
  split; [exact H |].
  destruct H as (e & H & _). intros v. rewrite H. discriminate.
Qed.

Lemma callsites_without_stack_trace_api_witness :
  engine text_host <> StructuredTraces /\
  (exists e, callsites text_host None sample_world = (Throw e, sample_world) /\
             exn_name e = "TypeError") /\
  (forall v, fst (callsites text_host None sample_world) <> Return v).
Proof.
  split; [discriminate |].
  apply (callsites_without_stack_trace_api text_host sample_world). discriminate.
Defined.

(** C6 as the specification has it: on the host whose engine ignores
    the hook, what the call throws is not an UnsupportedPlatform
    signal. *)
Lemma callsites_throws_no_UnsupportedPlatform :
  ~ (exists e w',
        callsites text_host None sample_world = (Throw e, w') /\
        exn_name e = "UnsupportedPlatform").
Proof.
  intros (e & w' & H & Hname).
  vm_compute in H. inversion H; subst. discriminate Hname.
Qed.

(* ================================================================== *)
(** ** Objects with ordered keys *)
(* ================================================================== *)

Lemma get_set o k v k' :
  get (set o k v) k' = if k =? k' then v else get o k'.
Proof.
  induction o as [| [k0 v0] o IH]; simpl.
  - reflexivity.
  - destruct (k0 =? k) eqn:E0.
    + apply String.eqb_eq in E0. subst k0. simpl.
      destruct (k =? k'); reflexivity.
    + simpl. rewrite IH. destruct (k0 =? k') eqn:E1; [| reflexivity].
      apply String.eqb_eq in E1. subst k0. rewrite String.eqb_sym, E0. reflexivity.
Qed.

Lemma keys_set_new o k v :
  ~ In k (keys o) -> keys (set o k v) = keys o ++ [k].
Proof.
  unfold keys. induction o as [| [k0 v0] o IH]; simpl; intros Hn.
  - reflexivity.
  - destruct (k0 =? k) eqn:E0.
    + apply String.eqb_eq in E0. tauto.
    + simpl. rewrite IH; tauto.
Qed.

Section Serialization.
Variable this : Obj.

(** The keys a run of the loop of [toJSON] adds, in the order met. *)
Lemma emit_keys (ks : list string) (acc : Obj) :
  NoDup ks ->
  (forall k, In k ks -> ~ In k (keys acc)) ->
  keys (fold_left (toJSON_round this) ks acc)
  = keys acc ++ filter (fun k => truthy (get this k)) ks.
Proof.
  revert acc. induction ks as [| k ks IH]; intros acc Hnd Hfresh; simpl.
  - rewrite app_nil_r. reflexivity.
  - inversion Hnd as [| ? ? Hk Hnd']; subst.
    unfold toJSON_round at 2. destruct (truthy (get this k)) eqn:Ht.
    + rewrite IH; [| exact Hnd' |].
      * rewrite keys_set_new by (apply Hfresh; left; reflexivity).
        rewrite <- app_assoc. reflexivity.
      * intros k' Hin. rewrite keys_set_new by (apply Hfresh; left; reflexivity).
        rewrite in_app_iff. intros [H | [H | []]].
        -- exact (Hfresh k' (or_intror Hin) H).
        -- subst k'. exact (Hk Hin).
    + apply IH; [exact Hnd' |].
      intros k' Hin. apply Hfresh. right. exact Hin.
Qed.

(** The value found under a key after the loop. *)
Lemma emit_get (ks : list string) (acc : Obj) (key : string) :
  get (fold_left (toJSON_round this) ks acc) key =
  if andb (existsb (String.eqb key) ks) (truthy (get this key))
  then get this key else get acc key.
Proof.
  revert acc. induction ks as [| k ks IH]; intros acc; simpl.
  - reflexivity.
  - rewrite IH. unfold toJSON_round.
    destruct (existsb (String.eqb key) ks) eqn:Ex; simpl.
    + rewrite orb_true_r. simpl.
      destruct (truthy (get this key)) eqn:Ht; [reflexivity |].
      destruct (truthy (get this k)) eqn:Hk; [| reflexivity].
      rewrite get_set. destruct (k =? key) eqn:E; [| reflexivity].
      apply String.eqb_eq in E. subst k. congruence.
    + rewrite orb_false_r. destruct (key =? k) eqn:E.
      * apply String.eqb_eq in E. subst k. simpl.
        destruct (truthy (get this key)) eqn:Ht; [| reflexivity].
        rewrite get_set, String.eqb_refl. reflexivity.
      * simpl. destruct (truthy (get this k)); [| reflexivity].
        rewrite get_set, String.eqb_sym, E. reflexivity.
Qed.
End Serialization.

Lemma properties_NoDup : NoDup properties.
Proof.
  assert (E : nodup string_dec properties = properties) by (vm_compute; reflexivity).
  rewrite <- E. apply NoDup_nodup.
Qed.

Lemma toJSON_keys this :
  keys (toJSON this) = filter (fun key => truthy (get this key)) properties.
Proof.
  unfold toJSON.
  rewrite (emit_keys this properties [] properties_NoDup); [reflexivity |].
  intros k _ [].
Qed.

Lemma toJSON_In this key :
  In key (keys (toJSON this)) <-> In key properties /\ truthy (get this key) = true.
Proof. rewrite toJSON_keys. apply filter_In. Qed.

Lemma toJSON_get this key :
  In key (keys (toJSON this)) -> get (toJSON this) key = get this key.
Proof.
  intros Hin. apply toJSON_In in Hin. destruct Hin as [Hin Ht].
  unfold toJSON. rewrite emit_get, Ht.
  assert (Hex : existsb (String.eqb key) properties = true).
  { apply existsb_exists. exists key. split; [exact Hin | apply String.eqb_refl]. }
  rewrite Hex. reflexivity.
Qed.

(** C4: whatever the properties of a record hold, the keys of its
    [toJSON()] are the members of [LogRecord.properties] whose value is
    truthy, in the order of that list: none twice, none from elsewhere,
    each with the value the record holds. *)
Theorem toJSON_emits_truthy_properties_in_order :
  forall (this : Obj),
    keys (toJSON this) = filter (fun key => truthy (get this key)) properties /\
    NoDup (keys (toJSON this)) /\
    (forall key, In key (keys (toJSON this)) <->
                 In key properties /\ truthy (get this key) = true) /\
    (forall key, In key (keys (toJSON this)) ->
                 get (toJSON this) key = get this key).
Proof.
  intros this. split; [apply toJSON_keys |]. split; [| split].
  - rewrite toJSON_keys. apply NoDup_filter. exact properties_NoDup.
  - intros key. apply toJSON_In.
  - intros key. apply toJSON_get.
Qed.

(* ================================================================== *)
(** ** Construction of a record *)
(* ================================================================== *)

Lemma In_properties key :
  existsb (String.eqb key) properties = true -> In key properties.
Proof.
  intros H. apply existsb_exists in H. destruct H as (k & Hin & E).
  apply String.eqb_eq in E. subst k. exact Hin.
Qed.

(** What a construction that returns has done. *)
Lemma new_LogRecord_inv h w r w' :
  new_LogRecord h w = (Return r, w') ->
  exists od,
    callsites h None w = (Return (callsites_field r), w') /\
    getOriginDetails (callsites_field r) = Return od /\
    get (this r) "log.logger" = VStr "unknown" /\
    get (this r) "log.origin.file.column" = column od /\
    get (this r) "log.origin.file.line" = line od /\
    get (this r) "log.origin.file.name" = fileName od /\
    get (this r) "log.origin.file.path" = path od /\
    get (this r) "log.origin.function" = function od /\
    get (this r) "process.args" = process_args h /\
    get (this r) "process.args_count" = length_of (process_args h).
Proof.
  unfold new_LogRecord. intros H.
  apply bind_Return_inv in H. destruct H as (cf & w1 & Hc & H).
  apply bind_Return_inv in H. destruct H as (od & w2 & Ho & H).
  unfold lift in Ho. inversion Ho; subst w2. clear Ho.
  unfold ret in H. inversion H; subst r w1. clear H.
  exists od. cbn [callsites_field this].
  split; [exact Hc |]. split; [assumption |].
  repeat split; reflexivity.
Qed.

Lemma length_of_process_args h :
  length_of (process_args h) = VNum (Z.of_nat (List.length (args_of h))).
Proof.
  unfold process_args, args_of. destruct (Deno h) as [args |]; simpl.
  - rewrite length_map. reflexivity.
  - reflexivity.
Qed.

(** C10: a record as construction leaves it always serializes the key
    "process.args", also when the list of arguments is empty, for an
    array is truthy; and it leaves out "process.args_count" exactly when
    that count is 0. *)
Theorem toJSON_process_args_of_fresh_record :
  forall (h : Host) (w w' : World) (r : LogRecord),
    new_LogRecord h w = (Return r, w') ->
    In "process.args" (keys (toJSON (this r))) /\
    get (toJSON (this r)) "process.args" = VArr (map VStr (args_of h)) /\
    (~ In "process.args_count" (keys (toJSON (this r))) <->
     get (this r) "process.args_count" = VNum 0).
Proof.
  intros h w w' r H.
  destruct (new_LogRecord_inv _ _ _ _ H)
    as (od & _ & _ & _ & _ & _ & _ & _ & _ & Hargs & Hcount).
  assert (Hin : In "process.args" (keys (toJSON (this r)))).
  { apply toJSON_In. split; [apply In_properties; reflexivity |].
    rewrite Hargs. unfold process_args. destruct (Deno h); reflexivity. }
  split; [exact Hin |]. split.
  - rewrite (toJSON_get (this r) _ Hin).
    rewrite Hargs. unfold process_args, args_of. destruct (Deno h); reflexivity.
  - rewrite toJSON_In, Hcount, length_of_process_args.
    set (n := Z.of_nat (List.length (args_of h))). simpl.
    destruct (n =? 0)%Z eqn:E; simpl.
    + apply Z.eqb_eq in E. rewrite E. split; [reflexivity |].
      intros _ [_ Hf]. discriminate Hf.
    + apply Z.eqb_neq in E. split.
      * intros Hn. exfalso. apply Hn. split; [apply In_properties |]; reflexivity.
      * intros Hz. inversion Hz. contradiction.
Qed.

Lemma toJSON_process_args_of_fresh_record_witness :
  new_LogRecord sample_host sample_world = (Return sample_LogRecord, sample_world) /\
  In "process.args" (keys (toJSON (this sample_LogRecord))) /\
  get (toJSON (this sample_LogRecord)) "process.args" = VArr (map VStr (args_of sample_host)) /\
  (~ In "process.args_count" (keys (toJSON (this sample_LogRecord))) <->
   get (this sample_LogRecord) "process.args_count" = VNum 0).
Proof.
  split; [reflexivity |].
  apply (toJSON_process_args_of_fresh_record sample_host sample_world sample_world).
  reflexivity.
Defined.




(* ================================================================== *)
(** ** The origin of a record *)
(* ================================================================== *)

Lemma prefix_slash a s :
  String.prefix "/" (String a s) = Ascii.eqb a "/".
Proof.
  change (String.prefix "/" (String a s))
    with (if ascii_dec "/" a then String.prefix "" s else false).
  destruct (ascii_dec "/" a) as [E | E].
  - subst a. destruct s; reflexivity.
  - symmetry. apply Ascii.eqb_neq. congruence.
Qed.

(** [lastIndexOf] finds the last slash. *)
Lemma lastIndexOf_from_slash s i last :
  lastIndexOf_from "/" s i last =
  match last_slash s with
  | Some n => (i + Z.of_nat n)%Z
  | None => last
  end.
Proof.
  revert i last. induction s as [| a s IH]; intros i last.
  - reflexivity.
  - cbn [lastIndexOf_from last_slash]. rewrite prefix_slash, IH.
    destruct (last_slash s) as [n |].
    + lia.
    + destruct (Ascii.eqb a "/"); [lia | reflexivity].
Qed.

Lemma last_slash_None s :
  last_slash s = None -> contains "/" s = false.
Proof.
  induction s as [| a s IH]; simpl; [reflexivity |].
  destruct (last_slash s); [discriminate |].
  destruct (Ascii.eqb a "/"); [discriminate | intros _; apply IH; reflexivity].
Qed.

Lemma last_slash_Some s n :
  last_slash s = Some n ->
  contains "/" (drop (S n) s) = false /\
  exists d, s = ((d ++ "/") ++ drop (S n) s)%string.
Proof.
  revert n. induction s as [| a s IH]; intros n; simpl; [discriminate |].
  destruct (last_slash s) as [m |] eqn:Em.
  - intros E. inversion E; subst n. destruct (IH m eq_refl) as (Hc & d & Hd).
    split; [exact Hc |]. exists (String a d).
    change (String a s = String a ((d ++ "/") ++ drop (S m) s)%string).
    f_equal. exact Hd.
  - destruct (Ascii.eqb a "/") eqn:Ea; [| discriminate].
    intros E. inversion E; subst n. apply Ascii.eqb_eq in Ea. subst a.
    split; [apply last_slash_None; exact Em |].
    exists ""%string. destruct s; reflexivity.
Qed.

(** What [path.substring(path.lastIndexOf("/") + 1)] is. *)
Lemma substring_after_last_slash p :
  after_last_slash p (substring (lastIndexOf "/" p + 1) p).
Proof.
  unfold after_last_slash, substring, lastIndexOf.
  rewrite lastIndexOf_from_slash.
  destruct (last_slash p) as [n |] eqn:E.
  - replace (Z.to_nat (0 + Z.of_nat n + 1)) with (S n) by lia.
    destruct (last_slash_Some p n E) as (Hc & d & Hd).
    split; [exact Hc |]. exists (d ++ "/")%string. split; [exact Hd |].
    right. exists d. reflexivity.
  - change (Z.to_nat (-1 + 1)) with O.
    assert (Hd : drop 0 p = p) by (destruct p; reflexivity). rewrite Hd.
    split; [apply last_slash_None; exact E |].
    exists ""%string. split; [reflexivity | left; reflexivity].
Qed.

(** What [#getOriginDetails] has read when it returns. *)
Lemma getOriginDetails_inv descs od :
  Forall (fun d => exists o, d = VObj o) descs ->
  getOriginDetails (VArr descs) = Return od ->
  exists cs p base,
    nth_error descs 2 = Some (VObj cs) /\
    column od = (if truthy (get cs "columnNumber")
                 then get cs "columnNumber" else VNum 0) /\
    line od = (if truthy (get cs "lineNumber")
               then get cs "lineNumber" else VNum 0) /\
    (if truthy (get cs "fileName") then get cs "fileName" else VStr "") = VStr p /\
    path od = VStr p /\
    fileName od = VStr base /\
    after_last_slash p base /\
    (p = ""%string -> base = ""%string) /\
    function od = (if truthy (get cs "functionName")
                   then get cs "functionName" else VStr "none").
Proof.
  intros Hobj H.
  destruct descs as [| d0 [| d1 [| d2 rest]]]; try discriminate H.
  inversion Hobj as [| ? ? _ Hobj1]; subst.
  inversion Hobj1 as [| ? ? _ Hobj2]; subst.
  inversion Hobj2 as [| ? ? (cs & ->) _]; subst.
  exists cs.
  unfold getOriginDetails in H.
  cbn [index nth and_then get_prop] in H.
  unfold or_else in H.
  destruct (truthy (get cs "fileName")) eqn:Tf.
  - rewrite Tf in H.
    destruct (get cs "fileName") as [| | | | | | p | | elems | |] eqn:Ef;
      try discriminate H; try discriminate Tf.
    cbn [call_lastIndexOf call_substring and_then] in H.
    inversion H; subst od. clear H. cbn [column line path fileName function].
    exists p, (substring (lastIndexOf "/" p + 1) p).
    repeat split; try reflexivity.
    + apply substring_after_last_slash.
    + apply substring_after_last_slash.
    + intros ->. reflexivity.
  - change (truthy (VStr "")) with false in H. cbn [and_then] in H.
    inversion H; subst od. clear H. cbn [column line path fileName function].
    exists ""%string, ""%string.
    repeat split; try reflexivity.
    exists ""%string. split; [reflexivity | left; reflexivity].
Qed.

(** C3: in every record that construction delivers, the five origin
    properties come from the descriptor at index 2 of what
    [callsites()] returned: column and line are its columnNumber and
    lineNumber, or 0 when those are falsy; the path is its fileName, or
    the empty string; the file name is what follows the last "/" of the
    path (empty for an empty path); the function is its functionName,
    or "none". *)
Theorem new_LogRecord_origin :
  forall (h : Host) (w w' : World) (r : LogRecord),
    new_LogRecord h w = (Return r, w') ->
    exists descs cs p base,
      callsites h None w = (Return (VArr descs), w') /\
      nth_error descs 2 = Some (VObj cs) /\
      get (this r) "log.origin.file.column"
        = (if truthy (get cs "columnNumber") then get cs "columnNumber" else VNum 0) /\
      get (this r) "log.origin.file.line"
        = (if truthy (get cs "lineNumber") then get cs "lineNumber" else VNum 0) /\
      (if truthy (get cs "fileName") then get cs "fileName" else VStr "") = VStr p /\
      get (this r) "log.origin.file.path" = VStr p /\
      get (this r) "log.origin.file.name" = VStr base /\
      after_last_slash p base /\
      (p = ""%string -> base = ""%string) /\
      get (this r) "log.origin.function"
        = (if truthy (get cs "functionName") then get cs "functionName" else VStr "none").
Proof.
  intros h w w' r H.
  destruct (new_LogRecord_inv _ _ _ _ H)
    as (od & Hc & Ho & _ & Hcol & Hline & Hname & Hpath & Hfun & _).
  destruct (callsites_returns_objects _ _ _ _ _ Hc) as (descs & Hv & Hobj).
  rewrite Hv in Hc, Ho.
  destruct (getOriginDetails_inv descs od Hobj Ho)
    as (cs & p & base & Hn & H1 & H2 & H3 & H4 & H5 & H6 & H7 & H8).
  exists descs, cs, p, base.
  rewrite Hcol, Hline, Hname, Hpath, Hfun, H1, H2, H4, H5, H8.
  split; [exact Hc |]. split; [exact Hn |].
  repeat (split; [reflexivity |]).
  split; [exact H3 |].
  repeat (split; [reflexivity |]).
  split; [exact H6 |]. split; [exact H7 | reflexivity].
Qed.

Lemma new_LogRecord_origin_witness :
  new_LogRecord sample_host sample_world = (Return sample_LogRecord, sample_world) /\
  exists descs cs p base,
    callsites sample_host None sample_world = (Return (VArr descs), sample_world) /\
    nth_error descs 2 = Some (VObj cs) /\
    get (this sample_LogRecord) "log.origin.file.column"
      = (if truthy (get cs "columnNumber") then get cs "columnNumber" else VNum 0) /\
    get (this sample_LogRecord) "log.origin.file.line"
      = (if truthy (get cs "lineNumber") then get cs "lineNumber" else VNum 0) /\
    (if truthy (get cs "fileName") then get cs "fileName" else VStr "") = VStr p /\
    get (this sample_LogRecord) "log.origin.file.path" = VStr p /\
    get (this sample_LogRecord) "log.origin.file.name" = VStr base /\
    after_last_slash p base /\
    (p = ""%string -> base = ""%string) /\
    get (this sample_LogRecord) "log.origin.function"
      = (if truthy (get cs "functionName") then get cs "functionName" else VStr "none").
Proof.
  split; [reflexivity |].
  apply (new_LogRecord_origin sample_host sample_world sample_world sample_LogRecord).
  reflexivity.
Defined.

(** The record of the sample host: line 7, column 28 of the file that
    instantiates it. *)
Example sample_record_origin :
  get sample_record "log.origin.file.line" = VNum 7 /\
  get sample_record "log.origin.file.column" = VNum 28 /\
  get sample_record "log.origin.file.path" = VStr "file:///app/test/fixtures/record.mjs" /\
  get sample_record "log.origin.file.name" = VStr "record.mjs" /\
  get sample_record "log.origin.function" = VStr "main".
Proof. repeat split; reflexivity. Qed.

(* ================================================================== *)
(** ** Further properties of [callsites] and [parseCallsite] *)
(* ================================================================== *)

Lemma callsites_world h argument w : snd (callsites h argument w) = w.
Proof. rewrite callsites_unfold. destruct w. reflexivity. Qed.

(** A call that returns has read an array from [error.stack] and mapped
    it, less its first member for a [StackOnlyError]. *)
Lemma callsites_Return_stack h argument w v w' :
  callsites h argument w = (Return v, w') ->
  exists st w1 descs,
    stack (match argument with Some e => e | None => new_StackOnlyError h end)
          (mkWorld HookRawFrames) = (Return (VArr st), w1) /\
    v = VArr descs /\
    Forall2 (fun cs d => exists w2 w3, parseCallsite cs w2 = (Return d, w3))
            (if instanceof_StackOnlyError
                  (match argument with Some e => e | None => new_StackOnlyError h end)
             then tl st else st)
            descs.
Proof.
  rewrite callsites_unfold. intros H.
  match type of H with (fst ?c, _) = _ => destruct c as [r w1] eqn:Hbody end.
  simpl in H. inversion H; subst r w'. clear H.
  apply bind_Return_inv in Hbody. destruct Hbody as (st & w2 & Hst & Hbody).
  apply bind_Return_inv in Hbody. destruct Hbody as (st' & w3 & Hshift & Hbody).
  destruct st' as [| | | | | | | | elems | |]; simpl in Hbody; try discriminate Hbody.
  apply bind_Return_inv in Hbody. destruct Hbody as (descs & w4 & Hmap & Hret).
  inversion Hret; subst.
  pose proof (mapM_Return_inv _ _ _ _ _ Hmap) as HF.
  destruct (instanceof_StackOnlyError _).
  - destruct st; simpl in Hshift; try discriminate Hshift.
    inversion Hshift; subst. eauto 10.
  - inversion Hshift; subst. eauto 10.
Qed.

(** A descriptor that [parseCallsite] returns holds, under each of its
    keys, what the member of that name returned. *)
Lemma parseCallsite_inv cs w d w' :
  parseCallsite cs w = (Return d, w') ->
  exists o,
    d = VObj o /\
    Forall2 (fun method key =>
               exists w1 w2, invoke cs method w1 = (Return (get o key), w2))
            CALLSITE_METHODS expanded_keys.
Proof.
  unfold parseCallsite. intros H.
  apply bind_Return_inv in H. destruct H as (o & w1 & Hloop & H).
  inversion H; subst. exists o. split; [reflexivity |].
  apply parseCallsite_loop_inv in Hloop.
  destruct Hloop as (assigned & HF & ->).
  unfold CALLSITE_METHODS in HF.
  repeat match goal with
         | HF : Forall2 _ (_ :: _) _ |- _ =>
             let kv := fresh "kv" in
             let Hk := fresh "Hk" in
             let Hv := fresh "Hv" in
             let HF' := fresh "HF" in
             inversion HF as [| ? kv ? ? [Hk Hv] HF']; clear HF; subst;
             destruct kv as [? ?]; vm_compute in Hk; inversion Hk; subst; clear Hk;
             cbn [snd] in Hv
         | HF : Forall2 _ [] _ |- _ => inversion HF; clear HF; subst
         end.
  unfold CALLSITE_METHODS, expanded_keys.
  repeat (constructor; [assumption |]). constructor.
Qed.

(** X1: what a call returns or throws does not depend on the hook that
    was installed before it, nor on what that hook would have produced:
    [error.stack] is read under the hook of [callsites] alone. *)
Theorem callsites_ignores_previous_hook :
  forall (h h' : Host) (argument : option JSError) (w w' : World),
    engine h = engine h' ->
    activations h = activations h' ->
    fst (callsites h argument w) = fst (callsites h' argument w').
Proof.
  intros h h' argument w w' He Ha.
  rewrite !callsites_unfold. cbn [fst].
  destruct argument as [e |]; [reflexivity |].
  cbn [new_StackOnlyError instanceof_StackOnlyError stack].
  unfold bind at 1 3. unfold engine_stack. cbn [prepareStackTrace].
  rewrite He, Ha. reflexivity.
Qed.

Lemma callsites_ignores_previous_hook_witness :
  fst (callsites sample_host None sample_world)
  = fst (callsites other_host None (mkWorld HookUndefined)).
Proof.
  apply (callsites_ignores_previous_hook sample_host other_host None sample_world
           (mkWorld HookUndefined)); reflexivity.
Defined.

(** X2: [callsites] has no [catch]: what reading [error.stack] throws is
    what the call throws, in the world it was called in. *)
Theorem callsites_propagates_stack_exception :
  forall (h : Host) (error : JSError) (w w1 : World) (x : Exn),
    stack error (mkWorld HookRawFrames) = (Throw x, w1) ->
    callsites h (Some error) w = (Throw x, w).
Proof.
  intros h error w w1 x Hs. rewrite callsites_unfold.
  rewrite (bind_Throw _ _ _ _ _ Hs). destruct w. reflexivity.
Qed.

Lemma callsites_propagates_stack_exception_witness :
  callsites sample_host (Some faulty_error) sample_world
  = (Throw (mkExn "RangeError" "stack"), sample_world).
Proof.
  apply (callsites_propagates_stack_exception sample_host faulty_error sample_world
           (mkWorld (HookFunction 99))).
  reflexivity.
Defined.

Lemma Forall2_In_left {A B} (R : A -> B -> Prop) l l' a :
  Forall2 R l l' -> In a l -> exists b, R a b.
Proof.
  induction 1 as [| x y l l' Hxy _ IH]; intros Hin; [contradiction |].
  destruct Hin as [<- | Hin]; [exists y; exact Hxy | exact (IH Hin)].
Qed.



(** X5: a descriptor is returned only if every one of the sixteen
    members could be called: when one frame that is to be described
    lacks a member of the table, the whole call throws and returns no
    descriptor, not even for the frames that are complete. *)
Theorem callsites_missing_member :
  forall (h : Host) (argument : option JSError) (w w1 : World)
         (st : list Value) (members : string -> option (M Value)) (method : string),
    stack (match argument with Some e => e | None => new_StackOnlyError h end)
          (mkWorld HookRawFrames) = (Return (VArr st), w1) ->
    In (VCallSite members)
       (if instanceof_StackOnlyError
             (match argument with Some e => e | None => new_StackOnlyError h end)
        then tl st else st) ->
    In method CALLSITE_METHODS ->
    members method = None ->
    exists e, callsites h argument w = (Throw e, w).
Proof.
  intros h argument w w1 st members method Hs Hin Hm Hnone.
  pose proof (callsites_world h argument w) as Hw.
  destruct (callsites h argument w) as [[v | e] w'] eqn:H; simpl in Hw; subst w'.
  - exfalso.
    destruct (callsites_Return_stack _ _ _ _ _ H) as (st' & w1' & descs & Hs' & _ & HF).
    rewrite Hs in Hs'. inversion Hs'; subst st' w1'.
    destruct (Forall2_In_left _ _ _ _ HF Hin) as (d & w2 & w3 & Hd).
    destruct (parseCallsite_inv _ _ _ _ Hd) as (o & _ & Hcalls).
    assert (Hcall : exists key w4 w5,
               invoke (VCallSite members) method w4 = (Return (get o key), w5)).
    { clear - Hcalls Hm. induction Hcalls as [| m k ms ks (w4 & w5 & Hmk) _ IH].
      - contradiction.
      - destruct Hm as [<- | Hm]; [exists k, w4, w5; exact Hmk | exact (IH Hm)]. }
    destruct Hcall as (key & w4 & w5 & Hcall).
    simpl in Hcall. rewrite Hnone in Hcall. discriminate Hcall.
  - exists e. reflexivity.
Qed.

Lemma callsites_missing_member_witness :
  exists e, callsites sample_host (Some old_error) sample_world = (Throw e, sample_world).
Proof.
  apply (callsites_missing_member sample_host (Some old_error) sample_world
           (mkWorld HookRawFrames) [callsite_object frame_main; old_callsite]
           (fun method =>
              if method =? "getPromiseIndex" then None
              else match member frame_main method with
                   | Some v => Some (ret v)
                   | None => None
                   end)
           "getPromiseIndex").
  - reflexivity.
  - right. left. reflexivity.
  - unfold CALLSITE_METHODS. repeat first [left; reflexivity | right].
  - reflexivity.
Defined.

(** X6: in every descriptor that [parseCallsite] returns, whatever the
    call site, each key holds the value the member it is named after
    returned: "this" that of [getThis], "typeName" that of
    [getTypeName], and so on down the table to "promiseIndex". *)
Theorem parseCallsite_fields_are_member_results :
  forall (cs : Value) (w w' : World) (d : Value),
    parseCallsite cs w = (Return d, w') ->
    exists o,
      d = VObj o /\
      Forall2 (fun method key =>
                 exists w1 w2, invoke cs method w1 = (Return (get o key), w2))
              CALLSITE_METHODS expanded_keys.
Proof. intros cs w w' d H. exact (parseCallsite_inv cs w d w' H). Qed.

Lemma parseCallsite_fields_are_member_results_witness :
  exists o,
    VObj (expanded frame_main') = VObj o /\
    Forall2 (fun method key =>
               exists w1 w2,
                 invoke (callsite_object frame_main') method w1 = (Return (get o key), w2))
            CALLSITE_METHODS expanded_keys.
Proof.
  apply (parseCallsite_fields_are_member_results (callsite_object frame_main')
           sample_world sample_world).
  reflexivity.
Defined.

Lemma replace_absent (pattern s : string) :
  (forall i, String.prefix pattern (drop i s) = false) ->
  replace pattern "" s = s.
Proof.
  induction s as [| a s IH]; intros Habs.
  - specialize (Habs O). cbn [drop] in Habs. cbn [replace]. rewrite Habs. reflexivity.
  - pose proof (Habs O) as H0. cbn [drop] in H0. cbn [replace]. rewrite H0.
    f_equal. apply IH. intros i. exact (Habs (S i)).
Qed.

(* ================================================================== *)
(** ** Further properties of [LogRecord] *)
(* ================================================================== *)

(** The properties a construction that returns has assigned. *)
Lemma new_LogRecord_this h w r w' :
  new_LogRecord h w = (Return r, w') ->
  exists od,
    callsites h None w = (Return (callsites_field r), w') /\
    getOriginDetails (callsites_field r) = Return od /\
    this r = fresh_properties h od.
Proof.
  unfold new_LogRecord. intros H.
  apply bind_Return_inv in H. destruct H as (cf & w1 & Hc & H).
  apply bind_Return_inv in H. destruct H as (od & w2 & Ho & H).
  unfold lift in Ho. inversion Ho; subst w2. clear Ho.
  unfold ret in H. inversion H; subst r w1. clear H.
  exists od. cbn [callsites_field this].
  split; [exact Hc |]. split; [assumption | reflexivity].
Qed.

Lemma In_by_eqb key (l : list string) :
  existsb (String.eqb key) l = true -> In key l.
Proof.
  intros H. apply existsb_exists in H. destruct H as (k & Hin & E).
  apply String.eqb_eq in E. subst k. exact Hin.
Qed.

(** X10: the constructor assigns the properties that
    [LogRecord.properties] lists, all of them and in that order:
    the own keys of a new record are that list. *)
Theorem new_LogRecord_keys :
  forall (h : Host) (w w' : World) (r : LogRecord),
    new_LogRecord h w = (Return r, w') ->
    keys (this r) = properties.
Proof.
  intros h w w' r H.
  destruct (new_LogRecord_this _ _ _ _ H) as (od & _ & _ & ->). reflexivity.
Qed.

Lemma new_LogRecord_keys_witness :
  new_LogRecord sample_host sample_world = (Return sample_LogRecord, sample_world) /\
  keys (this sample_LogRecord) = properties.
Proof.
  split; [reflexivity |].
  apply (new_LogRecord_keys sample_host sample_world sample_world). reflexivity.
Defined.

(** X11: every property that callers are to assign starts falsy (an
    empty string or 0), so a record nobody has touched can serialize
    only the timestamp, the logger, the five origin properties and the
    two about the process arguments; and the origin function is always
    among them, for it is "none" when the frame names no function. *)
Theorem toJSON_of_fresh_record :
  forall (h : Host) (w w' : World) (r : LogRecord),
    new_LogRecord h w = (Return r, w') ->
    (forall key, In key (keys (toJSON (this r))) -> In key fresh_emitted) /\
    In "log.origin.function" (keys (toJSON (this r))) /\
    (In "@timestamp" (keys (toJSON (this r))) <-> now h <> ""%string).
Proof.
  intros h w w' r H.
  destruct (new_LogRecord_this _ _ _ _ H) as (od & Hc & Ho & Hthis).
  split; [| split].
  - intros key Hin. apply toJSON_In in Hin. destruct Hin as [Hin Ht].
    rewrite Hthis in Ht. unfold properties in Hin. cbn [In] in Hin.
    repeat (destruct Hin as [<- | Hin];
            [first [ discriminate Ht | apply In_by_eqb; reflexivity ] |]).
    contradiction.
  - apply toJSON_In. split; [apply In_properties; reflexivity |].
    rewrite Hthis. change (truthy (function od) = true).
    destruct (callsites_returns_objects _ _ _ _ _ Hc) as (descs & Hv & Hobj).
    rewrite Hv in Ho.
    destruct (getOriginDetails_inv descs od Hobj Ho)
      as (cs & p & base & _ & _ & _ & _ & _ & _ & _ & _ & Hf).
    rewrite Hf. destruct (truthy (get cs "functionName")) eqn:E; [exact E | reflexivity].
  - rewrite toJSON_In, Hthis.
    change (truthy (get (fresh_properties h od) "@timestamp"))
      with (negb (now h =? "")).
    split.
    + intros [_ Ht] E. rewrite E in Ht. discriminate Ht.
    + intros Hn. split; [apply In_properties; reflexivity |].
      apply String.eqb_neq in Hn. rewrite Hn. reflexivity.
Qed.

Lemma toJSON_of_fresh_record_witness :
  new_LogRecord sample_host sample_world = (Return sample_LogRecord, sample_world) /\
  (forall key, In key (keys (toJSON (this sample_LogRecord))) -> In key fresh_emitted) /\
  In "log.origin.function" (keys (toJSON (this sample_LogRecord))) /\
  (In "@timestamp" (keys (toJSON (this sample_LogRecord)))
   <-> now sample_host <> ""%string).
Proof.
  split; [reflexivity |].
  apply (toJSON_of_fresh_record sample_host sample_world sample_world). reflexivity.
Defined.

Lemma set_new o k v : ~ In k (keys o) -> set o k v = o ++ [(k, v)].
Proof.
  unfold keys. induction o as [| [k0 v0] o IH]; simpl; intros Hn.
  - reflexivity.
  - destruct (k0 =? k) eqn:E0.
    + apply String.eqb_eq in E0. tauto.
    + rewrite IH; tauto.
Qed.

(** The loop of [toJSON] appends the truthy pairs in the order met. *)
Lemma toJSON_rounds this (ks : list string) (acc : Obj) :
  NoDup ks ->
  (forall k, In k ks -> ~ In k (keys acc)) ->
  fold_left (toJSON_round this) ks acc
  = acc ++ map (fun k => (k, get this k)) (filter (fun k => truthy (get this k)) ks).
Proof.
  revert acc. induction ks as [| k ks IH]; intros acc Hnd Hfresh; simpl.
  - rewrite app_nil_r. reflexivity.
  - inversion Hnd as [| ? ? Hk Hnd']; subst.
    unfold toJSON_round at 2. destruct (truthy (get this k)) eqn:Ht.
    + rewrite IH; [| exact Hnd' |].
      * rewrite set_new by (apply Hfresh; left; reflexivity).
        rewrite <- app_assoc. reflexivity.
      * intros k' Hin. rewrite keys_set_new by (apply Hfresh; left; reflexivity).
        rewrite in_app_iff. intros [H | [H | []]].
        -- exact (Hfresh k' (or_intror Hin) H).
        -- subst k'. exact (Hk Hin).
    + apply IH; [exact Hnd' |].
      intros k' Hin. apply Hfresh. right. exact Hin.
Qed.

Lemma toJSON_pairs this :
  toJSON this
  = map (fun k => (k, get this k)) (filter (fun k => truthy (get this k)) properties).
Proof.
  unfold toJSON. rewrite (toJSON_rounds this properties [] properties_NoDup).
  - reflexivity.
  - intros k _ [].
Qed.

(** Serializations agree when the declared properties do. *)
Lemma toJSON_ext this this' :
  (forall key, In key properties -> get this key = get this' key) ->
  toJSON this = toJSON this'.
Proof.
  intros Hext. rewrite !toJSON_pairs.
  rewrite (filter_ext_in (fun k => truthy (get this k)) (fun k => truthy (get this' k)))
    by (intros k Hk; rewrite (Hext k Hk); reflexivity).
  apply map_ext_in. intros k Hk. apply filter_In in Hk. destruct Hk as [Hk _].
  rewrite (Hext k Hk). reflexivity.
Qed.

(** What the serialization holds under any key. *)
Lemma toJSON_lookup this key :
  get (toJSON this) key
  = if andb (existsb (String.eqb key) properties) (truthy (get this key))
    then get this key else VUndefined.
Proof. unfold toJSON. rewrite emit_get. reflexivity. Qed.

Lemma existsb_properties key :
  In key properties -> existsb (String.eqb key) properties = true.
Proof.
  intros Hin. apply existsb_exists. exists key. split; [exact Hin | apply String.eqb_refl].
Qed.

(** Serializations agree when the declared properties agree in
    truthiness and, where truthy, in value. *)
Lemma toJSON_ext_truthy this this' :
  (forall key, In key properties ->
      truthy (get this key) = truthy (get this' key) /\
      (truthy (get this key) = true -> get this key = get this' key)) ->
  toJSON this = toJSON this'.
Proof.
  intros Hext. rewrite !toJSON_pairs.
  rewrite (filter_ext_in (fun k => truthy (get this k)) (fun k => truthy (get this' k)))
    by (intros k Hk; exact (proj1 (Hext k Hk))).
  apply map_ext_in. intros k Hk. apply filter_In in Hk. destruct Hk as [Hk Ht].
  destruct (Hext k Hk) as [Hb Hv]. rewrite Hv; [reflexivity |].
  rewrite Hb. exact Ht.
Qed.

(** X12: serializing what a serialization gave changes nothing: the
    output of [toJSON] holds only truthy values under declared keys, in
    declared order. *)
Theorem toJSON_idempotent :
  forall (this : Obj), toJSON (toJSON this) = toJSON this.
Proof.
  intros this. symmetry. apply toJSON_ext_truthy. intros key Hin.
  rewrite toJSON_lookup, (existsb_properties key Hin). cbn [andb].
  destruct (truthy (get this key)) eqn:Ht.
  - rewrite Ht. split; reflexivity.
  - split; [reflexivity | discriminate].
Qed.

(** X14: assigning a declared property and serializing: the key is
    emitted exactly when the value assigned is truthy, then with that
    value, and no other key of the serialization changes. *)
Theorem toJSON_after_assignment :
  forall (this : Obj) (key : string) (value : Value),
    In key properties ->
    (In key (keys (toJSON (set this key value))) <-> truthy value = true) /\
    (truthy value = true -> get (toJSON (set this key value)) key = value) /\
    (truthy value = false -> get (toJSON (set this key value)) key = VUndefined) /\
    (forall other, other <> key ->
        (In other (keys (toJSON (set this key value))) <->
         In other (keys (toJSON this))) /\
        get (toJSON (set this key value)) other = get (toJSON this) other).
Proof.
  intros this key value Hin.
  assert (Hsame : get (set this key value) key = value)
    by (rewrite get_set, String.eqb_refl; reflexivity).
  split; [| split; [| split]].
  - rewrite toJSON_In, Hsame. tauto.
  - intros Ht. rewrite toJSON_lookup, Hsame, Ht, (existsb_properties key Hin).
    reflexivity.
  - intros Ht. rewrite toJSON_lookup, Hsame, Ht, andb_false_r. reflexivity.
  - intros other Hne.
    assert (Hother : get (set this key value) other = get this other).
    { rewrite get_set. destruct (key =? other) eqn:E; [| reflexivity].
      apply String.eqb_eq in E. congruence. }
    split.
    + rewrite !toJSON_In, Hother. tauto.
    + rewrite !toJSON_lookup, Hother. reflexivity.
Qed.

Lemma toJSON_after_assignment_witness :
  (In "message" (keys (toJSON (set sample_record "message" (VStr "started"))))
   <-> truthy (VStr "started") = true) /\
  (truthy (VStr "started") = true ->
   get (toJSON (set sample_record "message" (VStr "started"))) "message"
   = VStr "started") /\
  (truthy (VStr "started") = false ->
   get (toJSON (set sample_record "message" (VStr "started"))) "message"
   = VUndefined) /\
  (forall other, other <> "message"%string ->
      (In other (keys (toJSON (set sample_record "message" (VStr "started")))) <->
       In other (keys (toJSON sample_record))) /\
      get (toJSON (set sample_record "message" (VStr "started"))) other
      = get (toJSON sample_record) other).
Proof.
  apply (toJSON_after_assignment sample_record "message" (VStr "started")).
  apply In_properties. reflexivity.
Defined.

(** X15: [toJSON()] gives the empty object exactly when no declared
    property holds a truthy value; so for an object without properties. *)
Theorem toJSON_empty :
  forall (this : Obj),
    toJSON this = [] <->
    (forall key, In key properties -> truthy (get this key) = false).
Proof.
  intros this. split.
  - intros Hnil key Hin. destruct (truthy (get this key)) eqn:Ht; [| reflexivity].
    assert (Hk : In key (keys (toJSON this))) by (apply toJSON_In; tauto).
    rewrite Hnil in Hk. contradiction.
  - intros Hall. rewrite toJSON_pairs.
    rewrite (filter_ext_in (fun k => truthy (get this k)) (fun _ => false)).
    + clear Hall. induction properties as [| k ks IH]; [reflexivity | exact IH].
    + exact Hall.
Qed.

(** X16: constructing a record leaves [Error.prepareStackTrace] as it
    found it, whether the constructor returns the record or throws. *)
Theorem new_LogRecord_restores_prepareStackTrace :
  forall (h : Host) (w : World),
    prepareStackTrace (snd (new_LogRecord h w)) = prepareStackTrace w.
Proof.
  intros h w. unfold new_LogRecord, bind.
  pose proof (callsites_world h None w) as Hw.
  destruct (callsites h None w) as [[v | e] w1]; simpl in Hw; subst w1;
    [| reflexivity].
  unfold lift. destruct (getOriginDetails v); reflexivity.
Qed.

Lemma callsites_throws_without_api h w :
  engine h <> StructuredTraces ->
  exists e, callsites h None w = (Throw e, w) /\ exn_name e = "TypeError".
Proof.
  intros He. rewrite callsites_unfold. destruct w as [hook]. simpl.
  unfold bind, engine_stack.
  destruct (engine h) as [| text |]; [contradiction | |];
    simpl; eexists; split; reflexivity.
Qed.

(** X17: on an engine without the stack trace API no record can be
    constructed: the field initializer [#callsites = callsites()]
    throws its [TypeError] before the constructor body runs. *)
Theorem new_LogRecord_without_stack_trace_api :
  forall (h : Host) (w : World),
    engine h <> StructuredTraces ->
    exists e, new_LogRecord h w = (Throw e, w) /\ exn_name e = "TypeError".
Proof.
  intros h w He.
  destruct (callsites_throws_without_api h w He) as (e & Hc & Hname).
  exists e. split; [| exact Hname].
  unfold new_LogRecord. exact (bind_Throw _ _ _ _ _ Hc).
Qed.

Lemma new_LogRecord_without_stack_trace_api_witness :
  exists e,
    new_LogRecord text_host sample_world = (Throw e, sample_world) /\
    exn_name e = "TypeError".
Proof.
  apply (new_LogRecord_without_stack_trace_api text_host sample_world). discriminate.
Defined.


(* ================================================================== *)
(** ** Frames of the engine *)
(* ================================================================== *)

Lemma table_property_of method :
  In method CALLSITE_METHODS ->
  exists property, property_of (replace "get" "" method) = Return property.
Proof.
  intros Hin. unfold CALLSITE_METHODS in Hin. cbn [In] in Hin.
  repeat (destruct Hin as [<- | Hin]; [eexists; reflexivity |]). contradiction.
Qed.

(** On a frame whose members are quiet the loop of [parseCallsite]
    returns, the same in every world, and leaves the world alone. *)
Lemma parseCallsite_loop_quiet cs methods :
  (forall method, In method methods ->
      (exists property, property_of (replace "get" "" method) = Return property) /\
      exists value, forall w, invoke cs method w = (Return value, w)) ->
  forall result, exists o,
    forall w, parseCallsite_loop cs methods result w = (Return o, w).
Proof.
  induction methods as [| method rest IH]; intros Hm result.
  - exists result. intros w. reflexivity.
  - destruct (Hm method (or_introl eq_refl)) as ((property & Hp) & value & Hv).
    destruct (IH (fun m Hin => Hm m (or_intror Hin)) (set result property value))
      as (o & Ho).
    exists o. intros w. cbn [parseCallsite_loop].
    rewrite Hp. unfold bind at 1, lift. unfold bind at 1. rewrite Hv. apply Ho.
Qed.

Lemma quiet_frame_parsed cs : quiet_frame cs -> exists d, parsed_from cs d.
Proof.
  intros Hq.
  destruct (parseCallsite_loop_quiet cs CALLSITE_METHODS
              (fun m Hin => conj (table_property_of m Hin) (Hq m Hin)) [])
    as (o & Ho).
  exists (VObj o). intros w. unfold parseCallsite, bind. rewrite Ho. reflexivity.
Qed.

Lemma mapM_quiet frames :
  Forall quiet_frame frames ->
  exists descs,
    (forall w, mapM parseCallsite frames w = (Return descs, w)) /\
    Forall2 parsed_from frames descs.
Proof.
  induction 1 as [| cs frames Hq _ (descs & Hmap & HF)].
  - exists []. split; [intros w; reflexivity | constructor].
  - destruct (quiet_frame_parsed cs Hq) as (d & Hd).
    exists (d :: descs). split.
    + intros w. cbn [mapM].
      rewrite (bind_Return _ _ _ _ _ (Hd w)), (bind_Return _ _ _ _ _ (Hmap w)).
      reflexivity.
    + constructor; assumption.
Qed.

(** When [error.stack] reads as an array under the hook and the frames
    to be described are quiet, the call returns their descriptors, one
    for each and in their order. *)
Lemma callsites_quiet h argument w st w1 :
  stack (match argument with Some e => e | None => new_StackOnlyError h end)
        (mkWorld HookRawFrames) = (Return (VArr st), w1) ->
  Forall quiet_frame
         (if instanceof_StackOnlyError
               (match argument with Some e => e | None => new_StackOnlyError h end)
          then tl st else st) ->
  exists descs,
    callsites h argument w = (Return (VArr descs), w) /\
    Forall2 parsed_from
            (if instanceof_StackOnlyError
                  (match argument with Some e => e | None => new_StackOnlyError h end)
             then tl st else st)
            descs.
Proof.
  intros Hs Hq. destruct (mapM_quiet _ Hq) as (descs & Hmap & HF).
  exists descs. split; [| exact HF].
  rewrite callsites_unfold. rewrite (bind_Return _ _ _ _ _ Hs).
  destruct w as [hook]. cbn [prepareStackTrace].
  destruct (instanceof_StackOnlyError _).
  - unfold bind at 1. cbn [array_shift]. unfold ret at 1. unfold array_map.
    rewrite (bind_Return _ _ _ _ _ (Hmap w1)). reflexivity.
  - unfold bind at 1. unfold ret at 1. unfold array_map.
    rewrite (bind_Return _ _ _ _ _ (Hmap w1)). reflexivity.
Qed.

Lemma Forall_tl {A} (P : A -> Prop) l : Forall P l -> Forall P (tl l).
Proof. intros H. destruct H; [constructor | assumption]. Qed.

(** Without argument, on an engine with the stack trace API. *)
Lemma callsites_default_quiet h w :
  engine h = StructuredTraces ->
  Forall quiet_frame (activations h) ->
  exists descs,
    callsites h None w = (Return (VArr descs), w) /\
    Forall2 parsed_from (tl (activations h)) descs.
Proof.
  intros He Hq.
  apply (callsites_quiet h None w (activations h) (mkWorld HookRawFrames)).
  - cbn [new_StackOnlyError stack]. unfold engine_stack. rewrite He. reflexivity.
  - cbn [new_StackOnlyError instanceof_StackOnlyError]. apply Forall_tl. exact Hq.
Qed.

(** The call sites built from what their members return are quiet. *)
Lemma callsite_object_quiet cs : quiet_frame (callsite_object cs).
Proof.
  intros method Hin. unfold CALLSITE_METHODS in Hin. cbn [In] in Hin.
  repeat (destruct Hin as [<- | Hin]; [eexists; intros w; reflexivity |]).
  contradiction.
Qed.

Lemma callsite_objects_quiet frames : Forall quiet_frame (map callsite_object frames).
Proof.
  induction frames as [| cs frames IH]; simpl; constructor;
    [apply callsite_object_quiet | exact IH].
Qed.

Lemma Forall2_combine {A B} (R : A -> B -> Prop) l l' x y :
  Forall2 R l l' -> In (x, y) (combine l l') -> R x y.
Proof.
  induction 1 as [| a b l l' Hab _ IH]; simpl; intros Hin; [contradiction |].
  destruct Hin as [E | Hin]; [inversion E; subst; exact Hab | exact (IH Hin)].
Qed.

(** The descriptor of a quiet frame holds under each key what the member
    of that key returns. *)
Lemma parsed_from_field cs d method key :
  quiet_frame cs ->
  parsed_from cs d ->
  In (method, key) (combine CALLSITE_METHODS expanded_keys) ->
  exists o, d = VObj o /\ forall w, invoke cs method w = (Return (get o key), w).
Proof.
  intros Hq Hd Hin.
  destruct (parseCallsite_inv _ _ _ _ (Hd (mkWorld HookUndefined))) as (o & -> & HF).
  exists o. split; [reflexivity |].
  destruct (Forall2_combine _ _ _ _ _ HF Hin) as (w1 & w2 & Hcall).
  destruct (Hq method (in_combine_l _ _ _ _ Hin)) as (value & Hvalue).
  rewrite Hvalue in Hcall. inversion Hcall; subst. exact Hvalue.
Qed.

Lemma position_fields_in_table method key :
  In (method, key) position_fields ->
  In (method, key) (combine CALLSITE_METHODS expanded_keys).
Proof.
  intros Hin. unfold position_fields in Hin. cbn [In] in Hin.
  repeat (destruct Hin as [E | Hin];
          [inversion E; subst; cbn; repeat first [left; reflexivity | right] |]).
  contradiction.
Qed.

Lemma Forall2_nth_error_left {A B} (R : A -> B -> Prop) l l' n a :
  Forall2 R l l' -> nth_error l n = Some a ->
  exists b, nth_error l' n = Some b /\ R a b.
Proof.
  intros HF. revert n. induction HF as [| x y l l' Hxy _ IH]; intros n Hn.
  - destruct n; discriminate Hn.
  - destruct n as [| n]; simpl in Hn.
    + inversion Hn; subst. exists y. split; [reflexivity | exact Hxy].
    + exact (IH n Hn).
Qed.

(** C2: without argument the result describes, in order, every recorded
    frame but the first, which is the activation of [callsites] itself;
    with an error of the caller, which cannot be a [StackOnlyError], it
    describes every frame of that error, in order.  The frames are any
    whose members return quietly, as those of an engine do. *)
Theorem callsites_drops_only_its_own_frame :
  forall (h : Host) (w : World) (error : JSError) (frames' : list Value) (w1 : World),
    engine h = StructuredTraces ->
    Forall quiet_frame (activations h) ->
    instanceof_StackOnlyError error = false ->
    stack error (mkWorld HookRawFrames) = (Return (VArr frames'), w1) ->
    Forall quiet_frame frames' ->
    (exists descs,
        callsites h None w = (Return (VArr descs), w) /\
        Forall2 parsed_from (tl (activations h)) descs) /\
    (exists descs,
        callsites h (Some error) w = (Return (VArr descs), w) /\
        Forall2 parsed_from frames' descs).
Proof.
  intros h w error frames' w1 He Hq Hi Hs Hq'. split.
  - exact (callsites_default_quiet h w He Hq).
  - pose proof (callsites_quiet h (Some error) w frames' w1 Hs) as H.
    cbn beta iota in H. rewrite Hi in H. exact (H Hq').
Qed.

Lemma callsites_drops_only_its_own_frame_witness :
  (exists descs,
      callsites sample_host None sample_world = (Return (VArr descs), sample_world) /\
      Forall2 parsed_from (tl (activations sample_host)) descs) /\
  (exists descs,
      callsites sample_host (Some sample_error) sample_world
        = (Return (VArr descs), sample_world) /\
      Forall2 parsed_from (map callsite_object [frame_main; frame_native]) descs).
Proof.
  apply (callsites_drops_only_its_own_frame sample_host sample_world sample_error
           (map callsite_object [frame_main; frame_native]) (mkWorld HookRawFrames)).
  - reflexivity.
  - apply callsite_objects_quiet.
  - reflexivity.
  - reflexivity.
  - apply callsite_objects_quiet.
Defined.

(* ================================================================== *)
(** ** Two captures at one place *)
(* ================================================================== *)

Lemma same_position_descriptors a b da db :
  quiet_frame a -> quiet_frame b ->
  parsed_from a da -> parsed_from b db ->
  same_position a b ->
  same_position_fields da db.
Proof.
  intros Hqa Hqb Hda Hdb Hsame method key Hin.
  pose proof (position_fields_in_table _ _ Hin) as Htable.
  destruct (parsed_from_field a da method key Hqa Hda Htable) as (oa & -> & Ha).
  destruct (parsed_from_field b db method key Hqb Hdb Htable) as (ob & -> & Hb).
  pose proof (Hsame method key Hin (mkWorld HookUndefined)) as E.
  rewrite Ha, Hb in E. inversion E as [E']. unfold get_prop. rewrite E'. reflexivity.
Qed.

Lemma same_position_all l1 l2 :
  Forall2 same_position l1 l2 ->
  Forall quiet_frame l1 -> Forall quiet_frame l2 ->
  forall descs1 descs2,
    Forall2 parsed_from l1 descs1 -> Forall2 parsed_from l2 descs2 ->
    Forall2 same_position_fields descs1 descs2.
Proof.
  induction 1 as [| a b l1 l2 Hab _ IH]; intros Hq1 Hq2 descs1 descs2 H1 H2.
  - inversion H1; inversion H2; subst. constructor.
  - inversion H1 as [| ? da ? ds1 Hda H1']; subst.
    inversion H2 as [| ? db ? ds2 Hdb H2']; subst.
    inversion Hq1; inversion Hq2; subst.
    constructor.
    + apply (same_position_descriptors a b); assumption.
    + apply IH; assumption.
Qed.

(** C8, as the code has it: two calls without argument whose recorded
    activations agree, place by place, on what tells the position
    (function name, file, line, column, eval origin and the flags that
    do not look at the receiver) return descriptor sequences that
    agree, member by member, on those fields; so in particular on
    fileName, lineNumber, columnNumber and functionName.  Nothing is
    said of "this", "function" and of what the engine derives from the
    receiver: "typeName", "methodName", "isToplevel". *)
Theorem callsites_same_position :
  forall (h1 h2 : Host) (w1 w2 : World),
    engine h1 = StructuredTraces ->
    engine h2 = StructuredTraces ->
    Forall quiet_frame (activations h1) ->
    Forall quiet_frame (activations h2) ->
    Forall2 same_position (activations h1) (activations h2) ->
    exists descs1 descs2,
      callsites h1 None w1 = (Return (VArr descs1), w1) /\
      callsites h2 None w2 = (Return (VArr descs2), w2) /\
      Forall2 same_position_fields descs1 descs2 /\
      Forall2 (fun d1 d2 =>
                 get_prop d1 "fileName" = get_prop d2 "fileName" /\
                 get_prop d1 "lineNumber" = get_prop d2 "lineNumber" /\
                 get_prop d1 "columnNumber" = get_prop d2 "columnNumber" /\
                 get_prop d1 "functionName" = get_prop d2 "functionName")
              descs1 descs2.
Proof.
  intros h1 h2 w1 w2 He1 He2 Hq1 Hq2 Hsame.
  destruct (callsites_default_quiet h1 w1 He1 Hq1) as (descs1 & Hc1 & HF1).
  destruct (callsites_default_quiet h2 w2 He2 Hq2) as (descs2 & Hc2 & HF2).
  exists descs1, descs2. split; [exact Hc1 |]. split; [exact Hc2 |].
  assert (Htl : Forall2 same_position (tl (activations h1)) (tl (activations h2))).
  { destruct Hsame; [constructor | assumption]. }
  pose proof (same_position_all _ _ Htl (Forall_tl _ _ Hq1) (Forall_tl _ _ Hq2)
                _ _ HF1 HF2) as Hfields.
  split; [exact Hfields |].
  eapply Forall2_impl; [| exact Hfields].
  intros d1 d2 Hd. unfold position_fields in Hd.
  repeat split.
  - apply (Hd "getFileName"). cbn. tauto.
  - apply (Hd "getLineNumber"). cbn. tauto.
  - apply (Hd "getColumnNumber"). cbn. tauto.
  - apply (Hd "getFunctionName"). cbn. tauto.
Qed.

Lemma circle_square_same_position :
  Forall2 same_position (activations circle_host) (activations square_host).
Proof.
  unfold circle_host, square_host. cbn [activations map].
  repeat (apply Forall2_cons;
          [intros method key Hin w; unfold position_fields in Hin; cbn [In] in Hin;
           repeat (destruct Hin as [E | Hin]; [inversion E; reflexivity |]);
           contradiction |]).
  apply Forall2_nil.
Qed.

Lemma callsites_same_position_witness :
  exists descs1 descs2,
    callsites circle_host None sample_world = (Return (VArr descs1), sample_world) /\
    callsites square_host None (mkWorld HookUndefined)
      = (Return (VArr descs2), mkWorld HookUndefined) /\
    Forall2 same_position_fields descs1 descs2 /\
    Forall2 (fun d1 d2 =>
               get_prop d1 "fileName" = get_prop d2 "fileName" /\
               get_prop d1 "lineNumber" = get_prop d2 "lineNumber" /\
               get_prop d1 "columnNumber" = get_prop d2 "columnNumber" /\
               get_prop d1 "functionName" = get_prop d2 "functionName")
            descs1 descs2.
Proof.
  apply (callsites_same_position circle_host square_host sample_world
           (mkWorld HookUndefined)).
  - reflexivity.
  - reflexivity.
  - apply callsite_objects_quiet.
  - apply callsite_objects_quiet.
  - exact circle_square_same_position.
Defined.

(** C8 as the specification has it: the two sample stacks are the same
    place by place, a method called from one line on a Circle and on a
    Square, and the descriptors returned differ in "typeName", which is
    neither "this" nor "function". *)
Lemma callsites_typeName_follows_receiver :
  Forall2 same_position (activations circle_host) (activations square_host) /\
  exists descs1 descs2,
    callsites circle_host None sample_world = (Return (VArr descs1), sample_world) /\
    callsites square_host None sample_world = (Return (VArr descs2), sample_world) /\
    ~ Forall2 equal_but_identity descs1 descs2.
Proof.
  split; [exact circle_square_same_position |].
  exists (map (fun cs => VObj (expanded cs)) [frame_method "Circle"; frame_main]),
         (map (fun cs => VObj (expanded cs)) [frame_method "Square"; frame_main]).
  split; [reflexivity |]. split; [reflexivity |].
  intros H. inversion H as [| d1 d2 l1 l2 (o1 & o2 & E1 & E2 & _ & Hget) _]; subst.
  inversion E1; inversion E2; subst o1 o2.
  assert (Ht : get (expanded (frame_method "Circle")) "typeName"
               = get (expanded (frame_method "Square")) "typeName").
  { apply Hget; discriminate. }
  discriminate Ht.
Qed.

(* ================================================================== *)
(** ** The frame a record is made from *)
(* ================================================================== *)

(** With a descriptor at index 2 whose file name is a string or falsy,
    [#getOriginDetails] returns. *)
Lemma getOriginDetails_at descs o :
  nth_error descs 2 = Some (VObj o) ->
  path_like (get o "fileName") ->
  exists p base,
    getOriginDetails (VArr descs)
    = Return {| column := or_else (get o "columnNumber") (VNum 0);
                line := or_else (get o "lineNumber") (VNum 0);
                path := VStr p;
                fileName := VStr base;
                function := or_else (get o "functionName") (VStr "none") |} /\
    or_else (get o "fileName") (VStr "") = VStr p /\
    after_last_slash p base.
Proof.
  intros Hn Hpath.
  destruct descs as [| d0 [| d1 [| d2 rest]]]; try discriminate Hn.
  inversion Hn; subst d2. clear Hn.
  assert (Hempty : after_last_slash "" "").
  { split; [reflexivity |]. exists ""%string. split; [reflexivity | left; reflexivity]. }
  unfold getOriginDetails. cbn [index nth and_then get_prop].
  destruct Hpath as [Hf | [p Hp]].
  - assert (Hor : or_else (get o "fileName") (VStr "") = VStr "")
      by (unfold or_else; rewrite Hf; reflexivity).
    rewrite Hor. change (truthy (VStr "")) with false. cbn [and_then].
    exists ""%string, ""%string.
    split; [reflexivity |]. split; [reflexivity | exact Hempty].
  - rewrite Hp. destruct (truthy (VStr p)) eqn:Tp.
    + assert (Hor : or_else (VStr p) (VStr "") = VStr p)
        by (unfold or_else; rewrite Tp; reflexivity).
      rewrite Hor, Tp. cbn [call_lastIndexOf call_substring and_then].
      exists p, (substring (lastIndexOf "/" p + 1) p).
      split; [reflexivity |]. split; [reflexivity | apply substring_after_last_slash].
    + assert (Hor : or_else (VStr p) (VStr "") = VStr "")
        by (unfold or_else; rewrite Tp; reflexivity).
      rewrite Hor. change (truthy (VStr "")) with false. cbn [and_then].
      exists ""%string, ""%string.
      split; [reflexivity |]. split; [reflexivity | exact Hempty].
Qed.

Lemma parsed_from_object cs d : parsed_from cs d -> exists o, d = VObj o.
Proof.
  intros Hd.
  destruct (parseCallsite_keys _ _ _ _ (Hd (mkWorld HookUndefined))) as (o & -> & _).
  exists o. reflexivity.
Qed.

(** C9: [#getOriginDetails] reads index 2 of the captured sequence
    unguarded.  On an engine with the stack trace API, whose frames
    answer quietly and report as file name a string or a falsy value:
    when the sequence that [callsites()] returns, the activation of
    [callsites] dropped, has three frames or more, the index is within
    it and construction returns a record; when it has fewer, the read
    gives [undefined] and construction throws a [TypeError]: no record
    with default origin is made. *)
Theorem new_LogRecord_needs_three_frames :
  forall (h : Host) (w : World),
    engine h = StructuredTraces ->
    Forall quiet_frame (activations h) ->
    (forall cs v w0,
        nth_error (activations h) 3 = Some cs ->
        invoke cs "getFileName" w0 = (Return v, w0) ->
        path_like v) ->
    exists descs,
      callsites h None w = (Return (VArr descs), w) /\
      List.length descs = List.length (tl (activations h)) /\
      (3 <= List.length descs ->
       (exists d, nth_error descs 2 = Some d /\ index (VArr descs) 2 = Return d) /\
       exists r, new_LogRecord h w = (Return r, w)) /\
      (List.length descs < 3 ->
       nth_error descs 2 = None /\
       index (VArr descs) 2 = Return VUndefined /\
       exists e, new_LogRecord h w = (Throw e, w) /\ exn_name e = "TypeError").
Proof.
  intros h w He Hq Hfile.
  destruct (callsites_default_quiet h w He Hq) as (descs & Hc & HF).
  exists descs. split; [exact Hc |].
  split; [symmetry; exact (Forall2_length HF) |].
  unfold new_LogRecord. rewrite (bind_Return _ _ _ _ _ Hc).
  destruct descs as [| d0 [| d1 [| d2 rest]]]; cbn [List.length].
  - split; [lia | intros _]. repeat split. eexists. split; reflexivity.
  - split; [lia | intros _]. repeat split. eexists. split; reflexivity.
  - split; [lia | intros _]. repeat split. eexists. split; reflexivity.
  - split; [intros _ | lia]. split; [eexists; split; reflexivity |].
    destruct (activations h) as [| f0 [| f1 [| f2 [| cs frames]]]] eqn:Ea;
      cbn [tl] in HF;
      try (inversion HF as [| ? ? ? ? _ HF1]; subst;
           try (inversion HF1 as [| ? ? ? ? _ HF2]; subst;
                try (inversion HF2; fail));
           fail).
    inversion HF as [| ? ? ? ? _ HF1]; subst.
    inversion HF1 as [| ? ? ? ? _ HF2]; subst.
    inversion HF2 as [| ? ? ? ? Hd2 _]; subst.
    assert (Hqcs : quiet_frame cs).
    { inversion Hq as [| ? ? _ Hq1]; subst. inversion Hq1 as [| ? ? _ Hq2]; subst.
      inversion Hq2 as [| ? ? _ Hq3]; subst. inversion Hq3; subst. assumption. }
    destruct (parsed_from_field cs d2 "getFileName" "fileName" Hqcs Hd2)
      as (o & -> & Hcall).
    { cbn. tauto. }
    assert (Hpath : path_like (get o "fileName")).
    { exact (Hfile cs _ (mkWorld HookUndefined) eq_refl (Hcall _)). }
    destruct (getOriginDetails_at (d0 :: d1 :: VObj o :: rest) o eq_refl Hpath)
      as (p & base & Hod & _).
    unfold bind at 1, lift. rewrite Hod. eexists. reflexivity.
Qed.

Lemma new_LogRecord_needs_three_frames_witness :
  (exists descs,
      callsites native_host None sample_world = (Return (VArr descs), sample_world) /\
      List.length descs = 3 /\
      exists r, new_LogRecord native_host sample_world = (Return r, sample_world)) /\
  (exists descs,
      callsites shallow_host None sample_world = (Return (VArr descs), sample_world) /\
      List.length descs = 2 /\
      exists e, new_LogRecord shallow_host sample_world = (Throw e, sample_world) /\
                exn_name e = "TypeError").
Proof.
  split.
  - destruct (new_LogRecord_needs_three_frames native_host sample_world eq_refl
                (callsite_objects_quiet _))
      as (descs & Hc & Hlen & Hok & _).
    + intros cs v w0 Hcs Hcall. cbn in Hcs. inversion Hcs; subst cs.
      cbn in Hcall. inversion Hcall; subst v. left. reflexivity.
    + exists descs. split; [exact Hc |]. split; [exact Hlen |].
      apply Hok. rewrite Hlen. apply le_n.
  - destruct (new_LogRecord_needs_three_frames shallow_host sample_world eq_refl
                (callsite_objects_quiet _))
      as (descs & Hc & Hlen & _ & Hfail).
    + intros cs v w0 Hcs. cbn in Hcs. discriminate Hcs.
    + exists descs. split; [exact Hc |]. split; [exact Hlen |].
      apply Hfail. rewrite Hlen. apply le_n.
Defined.



(** X7: without argument, on an engine with the stack trace API whose
    frames answer quietly, the call returns the empty array exactly
    when at most one activation was recorded: that of [callsites]
    itself, or none. *)
Theorem callsites_empty_result :
  forall (h : Host) (w : World),
    engine h = StructuredTraces ->
    Forall quiet_frame (activations h) ->
    (callsites h None w = (Return (VArr []), w) <-> List.length (activations h) <= 1).
Proof.
  intros h w He Hq.
  destruct (callsites_default_quiet h w He Hq) as (descs & Hc & HF).
  rewrite Hc. pose proof (Forall2_length HF) as Hlen. split.
  - intros E. inversion E; subst descs.
    destruct (activations h) as [| f0 [| f1 rest]]; cbn in Hlen |- *; try lia.
  - intros Hle.
    assert (Hd : descs = []).
    { destruct (activations h) as [| f0 [| f1 rest]]; cbn in Hlen, Hle;
        try lia; destruct descs; try discriminate Hlen; reflexivity. }
    rewrite Hd. reflexivity.
Qed.

Lemma callsites_empty_result_witness :
  callsites lone_host None sample_world = (Return (VArr []), sample_world) <->
  List.length (activations lone_host) <= 1.
Proof.
  apply (callsites_empty_result lone_host sample_world).
  - reflexivity.
  - apply callsite_objects_quiet.
Defined.

(** X9: a method name in which "get" does not occur, and which starts
    with a character of the ASCII range, keeps its name as key but for
    that first character, which is put in lower case. *)
Theorem property_of_other_name :
  forall (c : ascii) (rest : string),
    (nat_of_ascii c < 128)%nat ->
    (forall i, String.prefix "get" (drop i (String c rest)) = false) ->
    property_of (replace "get" "" (String c rest))
    = Return (String (toLowerCase c) rest).
Proof.
  intros c rest _ Habs. rewrite (replace_absent _ _ Habs). reflexivity.
Qed.

Lemma property_of_other_name_witness :
  property_of (replace "get" "" "IsNative") = Return "isNative"%string.
Proof.
  apply (property_of_other_name "I" "sNative").
  - apply Nat.ltb_lt. reflexivity.
  - intros i. do 9 (destruct i as [| i]; [reflexivity |]). reflexivity.
Defined.

(** X13: a property that [LogRecord.properties] does not list is never
    serialized: assigning one to a record, whatever the value, leaves
    its [toJSON()] as it was.  The keys "toJSON", which would hide the
    method, and "__proto__", which is no property, are set apart. *)
Theorem toJSON_ignores_undeclared :
  forall (this : Obj) (key : string) (value : Value),
    ~ In key properties ->
    key <> "toJSON"%string ->
    key <> "__proto__"%string ->
    toJSON (set this key value) = toJSON this.
Proof.
  intros this key value Hn _ _. apply toJSON_ext. intros k Hk.
  rewrite get_set. destruct (key =? k) eqn:E; [| reflexivity].
  apply String.eqb_eq in E. subst k. contradiction.
Qed.

Lemma toJSON_ignores_undeclared_witness :
  toJSON (set sample_record "trace.id" (VStr "4bf92f35")) = toJSON sample_record.
Proof.
  apply (toJSON_ignores_undeclared sample_record "trace.id" (VStr "4bf92f35")).
  - intros Hin. unfold properties in Hin. cbn [In] in Hin.
    repeat (destruct Hin as [Hin | Hin]; [discriminate Hin |]). exact Hin.
  - discriminate.
  - discriminate.
Defined.

(** X18: on an engine with the stack trace API whose frames answer
    quietly, the origin of a record is the fourth activation recorded,
    the one three calls above [callsites]: the line and the column it
    reports (0 when falsy), the file it reports as path (empty when
    falsy) with what follows the last "/" as name, and the function
    name it reports ("none" when falsy). *)
Theorem new_LogRecord_origin_is_fourth_frame :
  forall (h : Host) (w : World) (cs vfile vline vcolumn vfunction : Value),
    engine h = StructuredTraces ->
    Forall quiet_frame (activations h) ->
    nth_error (activations h) 3 = Some cs ->
    (forall w0, invoke cs "getFileName" w0 = (Return vfile, w0)) ->
    (forall w0, invoke cs "getLineNumber" w0 = (Return vline, w0)) ->
    (forall w0, invoke cs "getColumnNumber" w0 = (Return vcolumn, w0)) ->
    (forall w0, invoke cs "getFunctionName" w0 = (Return vfunction, w0)) ->
    path_like vfile ->
    exists r p base,
      new_LogRecord h w = (Return r, w) /\
      get (this r) "log.origin.file.line"
        = (if truthy vline then vline else VNum 0) /\
      get (this r) "log.origin.file.column"
        = (if truthy vcolumn then vcolumn else VNum 0) /\
      (if truthy vfile then vfile else VStr "") = VStr p /\
      get (this r) "log.origin.file.path" = VStr p /\
      get (this r) "log.origin.file.name" = VStr base /\
      after_last_slash p base /\
      get (this r) "log.origin.function"
        = (if truthy vfunction then vfunction else VStr "none").
Proof.
  intros h w cs vfile vline vcolumn vfunction He Hq Hn Hfile Hline Hcolumn Hfunction Hpath.
  destruct (callsites_default_quiet h w He Hq) as (descs & Hc & HF).
  assert (Hqcs : quiet_frame cs).
  { rewrite Forall_forall in Hq. apply Hq. exact (nth_error_In _ _ Hn). }
  assert (Hn' : nth_error (tl (activations h)) 2 = Some cs).
  { destruct (activations h); [discriminate Hn | exact Hn]. }
  destruct (Forall2_nth_error_left _ _ _ _ _ HF Hn') as (d & Hd & Hparsed).
  destruct (parsed_from_object _ _ Hparsed) as (o & ->).
  assert (Hfield : forall method key value,
             In (method, key) (combine CALLSITE_METHODS expanded_keys) ->
             (forall w0, invoke cs method w0 = (Return value, w0)) ->
             get o key = value).
  { intros method key value Hin Hvalue.
    destruct (parsed_from_field cs (VObj o) method key Hqcs Hparsed Hin)
      as (o' & Eo & Hcall).
    inversion Eo; subst o'.
    pose proof (Hcall (mkWorld HookUndefined)) as E. rewrite Hvalue in E.
    inversion E. reflexivity. }
  assert (Ef : get o "fileName" = vfile)
    by (apply (Hfield "getFileName"); [cbn; tauto | exact Hfile]).
  assert (El : get o "lineNumber" = vline)
    by (apply (Hfield "getLineNumber"); [cbn; tauto | exact Hline]).
  assert (Ec : get o "columnNumber" = vcolumn)
    by (apply (Hfield "getColumnNumber"); [cbn; tauto | exact Hcolumn]).
  assert (En : get o "functionName" = vfunction)
    by (apply (Hfield "getFunctionName"); [cbn; tauto | exact Hfunction]).
  rewrite <- Ef in Hpath.
  destruct (getOriginDetails_at descs o Hd Hpath) as (p & base & Hod & Hor & Hbase).
  rewrite Ef, El, Ec, En in *.
  eexists. exists p, base. split.
  - unfold new_LogRecord. rewrite (bind_Return _ _ _ _ _ Hc).
    unfold bind at 1, lift. rewrite Hod. reflexivity.
  - cbn [this]. repeat split; try reflexivity; try exact Hor; apply Hbase.
Qed.

Lemma new_LogRecord_origin_is_fourth_frame_witness :
  exists r p base,
    new_LogRecord native_host sample_world = (Return r, sample_world) /\
    get (this r) "log.origin.file.line" = (if truthy VNull then VNull else VNum 0) /\
    get (this r) "log.origin.file.column" = (if truthy VNull then VNull else VNum 0) /\
    (if truthy VNull then VNull else VStr "") = VStr p /\
    get (this r) "log.origin.file.path" = VStr p /\
    get (this r) "log.origin.file.name" = VStr base /\
    after_last_slash p base /\
    get (this r) "log.origin.function" = (if truthy VNull then VNull else VStr "none").
Proof.
  apply (new_LogRecord_origin_is_fourth_frame native_host sample_world
           (callsite_object frame_native) VNull VNull VNull VNull).
  - reflexivity.
  - apply callsite_objects_quiet.
  - reflexivity.
  - intros w0. reflexivity.
  - intros w0. reflexivity.
  - intros w0. reflexivity.
  - intros w0. reflexivity.
  - left. reflexivity.
Defined.
